(** * Notebook Control Center: fan protocol, fan curve and keyboard backlight

    A shallow embedding of the hardware-facing part of [notebook-control.py]:
    the [FanController] ioctl protocol, the [FanCurve] interpolation, the
    curve editing handlers of [NotebookControlApp], and the sysfs driven
    [KeyboardBacklightController].

    Python integers are [Z].  Python floats are IEEE-754 binary64 values,
    taken from the Standard Library's executable specification [SpecFloat]
    (precision 53, exponent bound 1024, round to nearest, ties to even).
    Exceptions are values of [exn]; a computation that may raise returns a
    [res]. *)

From Stdlib Require Import ZArith List Lia Bool Permutation.
From Stdlib Require String.
From Stdlib Require Import Floats.SpecFloat.
Import ListNotations.
Open Scope Z_scope.

(* ------------------------------------------------------------------ *)
(** ** Exceptions and results *)

Inductive exn : Type :=
| IndexError
| ZeroDivisionError
| OverflowError
| ValueError
| OSError
| StructError.

Inductive res (A : Type) : Type :=
| Ret (a : A)
| Exc (e : exn).

Arguments Ret {A} a.
Arguments Exc {A} e.

Definition res_bind {A B : Type} (r : res A) (k : A -> res B) : res B :=
  match r with
  | Ret a => k a
  | Exc e => Exc e
  end.

Declare Scope res_scope.
Delimit Scope res_scope with res.
Notation "x <- r ;; k" := (res_bind r (fun x => k))
  (at level 61, r at next level, right associativity) : res_scope.

(* ------------------------------------------------------------------ *)
(** ** Python numbers *)

Module PyNum.

(** binary64 *)
Definition prec : Z := 53.
Definition emax : Z := 1024.

Definition float := spec_float.

Definition fmul : float -> float -> float := SFmul prec emax.
Definition fadd : float -> float -> float := SFadd prec emax.
Definition fdiv : float -> float -> float := SFdiv prec emax.

(** [float(z)] for an integer [z]: the nearest binary64, ties to even;
    [OverflowError] when [z] is too large for a float. *)
Definition float_of_int (z : Z) : res float :=
  match binary_normalize prec emax z 0 false with
  | S754_infinity _ => Exc OverflowError
  | f => Ret f
  end.

(** The integer [z] as an unrounded dyadic number [z * 2^0]. *)
Definition exact_int (z : Z) : float :=
  match z with
  | Z0 => S754_zero false
  | Zpos p => S754_finite false p 0
  | Zneg p => S754_finite true p 0
  end.

(** [a / b] on integers (true division): the quotient of the two exact
    integers, rounded once. *)
Definition int_truediv (a b : Z) : res float :=
  if b =? 0 then Exc ZeroDivisionError
  else match fdiv (exact_int a) (exact_int b) with
       | S754_infinity _ => Exc OverflowError
       | f => Ret f
       end.

(** [int(x)] for a float [x]: truncation toward zero. *)
Definition int_of_float (x : float) : res Z :=
  match x with
  | S754_zero _ => Ret 0
  | S754_infinity _ => Exc OverflowError
  | S754_nan => Exc ValueError
  | S754_finite s m e =>
      let a := match e with
               | Zneg k => Z.shiftr (Zpos m) (Zpos k)
               | _ => Z.shiftl (Zpos m) e
               end in
      Ret (if s then - a else a)
  end.

(** [round(x)] with one argument: the nearest integer, ties to even. *)
Definition round (x : float) : res Z :=
  match x with
  | S754_zero _ => Ret 0
  | S754_infinity _ => Exc OverflowError
  | S754_nan => Exc ValueError
  | S754_finite s m e =>
      let a := match e with
               | Zneg k =>
                   let d := Z.shiftl 1 (Zpos k) in
                   let q := Zpos m / d in
                   let r := Zpos m mod d in
                   match 2 * r ?= d with
                   | Lt => q
                   | Gt => q + 1
                   | Eq => if Z.even q then q else q + 1
                   end
               | _ => Z.shiftl (Zpos m) e
               end in
      Ret (if s then - a else a)
  end.

(** The literal [2.55]: 0x1.4666666666666p+1. *)
Definition f2_55 : float := S754_finite false 5742089524897382 (-51).

End PyNum.

(* ------------------------------------------------------------------ *)
(** ** FanCurve *)

Module FanCurve.
Import PyNum.
Local Open Scope res_scope.

(** A control point [(temperature, speed)]. *)
Abbreviation point := (Z * Z)%type.

Definition DEFAULT : list point :=
  [(30, 0); (40, 20); (50, 35); (60, 50); (70, 70); (80, 90); (90, 100)].

(** [int(s1 + (temp - t1) / (t2 - t1) * (s2 - s1))] *)
Definition interpolate (t1 s1 t2 s2 temp : Z) : res Z :=
  q <- int_truediv (temp - t1) (t2 - t1) ;;
  d <- float_of_int (s2 - s1) ;;
  a <- float_of_int s1 ;;
  int_of_float (fadd a (fmul q d)).

(** The [for i in range(len(self.points) - 1)] loop of [get_speed];
    [dflt] is the value of the final [return self.points[-1][1]]. *)
Fixpoint scan (pts : list point) (temp dflt : Z) : res Z :=
  match pts with
  | (t1, s1) :: (((t2, s2) :: _) as tl) =>
      if (t1 <=? temp) && (temp <=? t2)
      then interpolate t1 s1 t2 s2 temp
      else scan tl temp dflt
  | _ => Ret dflt
  end.

Definition get_speed (points : list point) (temp : Z) : res Z :=
  match points with
  | [] => Exc IndexError
  | (t0, s0) :: _ =>
      if temp <=? t0 then Ret s0
      else
        let '(tn, sn) := last points (t0, s0) in
        if temp >=? tn then Ret sn
        else scan points temp sn
  end.

(** The interpolation formula over the rationals, truncated toward zero:
    [s1 + (temp - t1) / (t2 - t1) * (s2 - s1)] is the fraction
    [(s1 * (t2 - t1) + (temp - t1) * (s2 - s1)) / (t2 - t1)]. *)
Definition interpolate_exact (t1 s1 t2 s2 temp : Z) : Z :=
  Z.quot (s1 * (t2 - t1) + (temp - t1) * (s2 - s1)) (t2 - t1).

(** The contract's [speed_for], following its words, with the formula
    taken over the rationals: the boundary speed outside the curve, else
    the interpolation between the two bracketing points, truncated toward
    zero. *)
Fixpoint speed_for_bracket (pts : list point) (temp dflt : Z) : Z :=
  match pts with
  | (t1, s1) :: (((t2, s2) :: _) as tl) =>
      if (t1 <=? temp) && (temp <=? t2)
      then interpolate_exact t1 s1 t2 s2 temp
      else speed_for_bracket tl temp dflt
  | _ => dflt
  end.

Definition speed_for (pts : list point) (temp : Z) : Z :=
  let lo := hd (0, 0) pts in
  let hi := last pts (0, 0) in
  if temp <=? fst lo then snd lo
  else if fst hi <=? temp then snd hi
  else speed_for_bracket pts temp (snd hi).

(** Strictly ascending temperatures. *)
Fixpoint ascending (pts : list point) : Prop :=
  match pts with
  | p1 :: ((p2 :: _) as tl) => fst p1 < fst p2 /\ ascending tl
  | _ => True
  end.

End FanCurve.

(* ------------------------------------------------------------------ *)
(** ** Python sequences indexed by an integer *)

Module PySeq.

(** [l[i]]: a negative index counts from the end; out of range raises. *)
Definition getitem {A : Type} (l : list A) (i : Z) : res A :=
  let n := Z.of_nat (length l) in
  let j := if i <? 0 then i + n else i in
  if (0 <=? j) && (j <? n)
  then match nth_error l (Z.to_nat j) with
       | Some a => Ret a
       | None => Exc IndexError
       end
  else Exc IndexError.

(** [del l[i]] *)
Definition delitem {A : Type} (l : list A) (i : Z) : res (list A) :=
  let n := Z.of_nat (length l) in
  let j := if i <? 0 then i + n else i in
  if (0 <=? j) && (j <? n)
  then Ret (firstn (Z.to_nat j) l ++ skipn (S (Z.to_nat j)) l)
  else Exc IndexError.

End PySeq.

(* ------------------------------------------------------------------ *)
(** ** Stateful computations that may raise *)

Module Eff.

(** A computation over a state [S]: the result or the exception raised,
    and the state reached either way. *)
Definition M (S A : Type) : Type := S -> res A * S.

Definition ret {S A : Type} (a : A) : M S A := fun s => (Ret a, s).

Definition raise {S A : Type} (e : exn) : M S A := fun s => (Exc e, s).

Definition bind {S A B : Type} (m : M S A) (k : A -> M S B) : M S B :=
  fun s => match m s with
           | (Ret a, s') => k a s'
           | (Exc e, s') => (Exc e, s')
           end.

Definition lift {S A : Type} (r : res A) : M S A := fun s => (r, s).

(** [try: m  except: h] *)
Definition try_except {S A : Type} (m : M S A) (h : exn -> M S A) : M S A :=
  fun s => match m s with
           | (Ret a, s') => (Ret a, s')
           | (Exc e, s') => h e s'
           end.

End Eff.

Declare Scope eff_scope.
Delimit Scope eff_scope with eff.
Notation "x <- m ;; k" := (Eff.bind m (fun x => k))
  (at level 61, m at next level, right associativity) : eff_scope.
Notation "m ;;; k" := (Eff.bind m (fun _ => k))
  (at level 61, right associativity) : eff_scope.

(* ------------------------------------------------------------------ *)
(** ** Fan control: ioctl requests on /dev/tuxedo_io *)

Module Ioctl.

Definition IOCTL_MAGIC : Z := 0xEC.
Definition MAGIC_READ_CL : Z := IOCTL_MAGIC + 1.
Definition MAGIC_WRITE_CL : Z := IOCTL_MAGIC + 2.
Definition MAGIC_READ_UW : Z := IOCTL_MAGIC + 3.
Definition MAGIC_WRITE_UW : Z := IOCTL_MAGIC + 4.

Definition _IOC_NONE : Z := 0.
Definition _IOC_WRITE : Z := 1.
Definition _IOC_READ : Z := 2.
Definition _IOC_NRSHIFT : Z := 0.
Definition _IOC_TYPESHIFT : Z := 8.
Definition _IOC_SIZESHIFT : Z := 16.
Definition _IOC_DIRSHIFT : Z := 30.
Definition PTR_SIZE : Z := 8.

Definition _IOC (d t n s : Z) : Z :=
  Z.lor (Z.lor (Z.lor (Z.shiftl d _IOC_DIRSHIFT) (Z.shiftl t _IOC_TYPESHIFT))
               (Z.shiftl n _IOC_NRSHIFT))
        (Z.shiftl s _IOC_SIZESHIFT).

Definition _IOR (t n : Z) : Z := _IOC _IOC_READ t n PTR_SIZE.
Definition _IOW (t n : Z) : Z := _IOC _IOC_WRITE t n PTR_SIZE.
Definition _IO (t n : Z) : Z := _IOC _IOC_NONE t n 0.

Definition R_HWCHECK_CL : Z := _IOR IOCTL_MAGIC 0x05.
Definition R_CL_FANINFO1 : Z := _IOR MAGIC_READ_CL 0x10.
Definition R_CL_FANINFO2 : Z := _IOR MAGIC_READ_CL 0x11.
Definition R_CL_FANINFO3 : Z := _IOR MAGIC_READ_CL 0x12.
Definition W_CL_FANSPEED : Z := _IOW MAGIC_WRITE_CL 0x10.
Definition W_CL_FANAUTO : Z := _IOW MAGIC_WRITE_CL 0x11.

Definition R_HWCHECK_UW : Z := _IOR IOCTL_MAGIC 0x06.
Definition R_UW_FANSPEED : Z := _IOR MAGIC_READ_UW 0x10.
Definition R_UW_FANSPEED2 : Z := _IOR MAGIC_READ_UW 0x11.
Definition R_UW_FAN_TEMP : Z := _IOR MAGIC_READ_UW 0x12.
Definition R_UW_FAN_TEMP2 : Z := _IOR MAGIC_READ_UW 0x13.
Definition W_UW_FANSPEED : Z := _IOW MAGIC_WRITE_UW 0x10.
Definition W_UW_FANSPEED2 : Z := _IOW MAGIC_WRITE_UW 0x11.
Definition W_UW_FANAUTO : Z := _IO MAGIC_WRITE_UW 0x14.

(** One call of [fcntl.ioctl] on the device: a read request, a write
    request with the integer it carries, or a request without payload. *)
Inductive event : Type :=
| EvRead (fd req : Z)
| EvWrite (fd req val : Z)
| EvCmd (fd req : Z).

(** The kernel side.  Each answer may depend on every call made so far:
    [drv_read] gives the 32-bit word the driver stores in the buffer, or
    [None] when the call fails with [OSError]; [drv_write] and [drv_cmd]
    tell whether the call succeeds. *)
Record driver : Type := {
  drv_read : list event -> Z -> option Z;
  drv_write : list event -> Z -> Z -> bool;
  drv_cmd : list event -> Z -> bool
}.

(** The state threaded through the controller: the calls made so far,
    oldest first. *)
Definition io (A : Type) : Type := Eff.M (list event) A.

(** [struct.unpack('i', ...)]: the low 32 bits as a signed integer. *)
Definition to_int32 (v : Z) : Z := (v + 2 ^ 31) mod 2 ^ 32 - 2 ^ 31.

(** [struct.pack('i', val)] accepts exactly the signed 32-bit range. *)
Definition fits_int32 (v : Z) : bool := (- 2 ^ 31 <=? v) && (v <? 2 ^ 31).

Definition ioctl_read_int32 (drv : driver) (fd req : Z) : io Z :=
  fun log =>
    match drv_read drv log req with
    | Some v => (Ret (to_int32 v), log ++ [EvRead fd req])
    | None => (Exc OSError, log ++ [EvRead fd req])
    end.

Definition ioctl_write_int32 (drv : driver) (fd req val : Z) : io unit :=
  fun log =>
    if fits_int32 val
    then if drv_write drv log req val
         then (Ret tt, log ++ [EvWrite fd req val])
         else (Exc OSError, log ++ [EvWrite fd req val])
    else (Exc StructError, log).

(** [fcntl.ioctl(fd, req)] *)
Definition ioctl_cmd (drv : driver) (fd req : Z) : io unit :=
  fun log =>
    if drv_cmd drv log req
    then (Ret tt, log ++ [EvCmd fd req])
    else (Exc OSError, log ++ [EvCmd fd req]).

End Ioctl.

(* ------------------------------------------------------------------ *)
(** ** FanController *)

Module FanController.
Import Ioctl PyNum.
Local Open Scope eff_scope.

Inductive platform_t : Type := clevo | uniwill.

(** [self.fd] and [self.platform]; [None] is Python's [None]. *)
Record t : Type := {
  fd : option Z;
  platform : option platform_t
}.

Definition CL_FANINFO : list Z :=
  [R_CL_FANINFO1; R_CL_FANINFO2; R_CL_FANINFO3].

(** [round(speed * 100 / 255)] *)
Definition speed_percent (speed : Z) : res Z :=
  res_bind (int_truediv (speed * 100) 255) round.

(** [int(speed_pct * 2.55)] *)
Definition speed_raw_cl (speed_pct : Z) : res Z :=
  res_bind (float_of_int speed_pct) (fun x => int_of_float (fmul x f2_55)).

Definition get_fan_info (drv : driver) (self : t) (fan_id : Z) : io (Z * Z) :=
  match fd self with
  | None => Eff.ret (0, 0)
  | Some h =>
      if h =? 0 then Eff.ret (0, 0)
      else
        Eff.try_except
          (match platform self with
           | Some clevo =>
               cmd <- Eff.lift (PySeq.getitem CL_FANINFO fan_id) ;;
               info <- ioctl_read_int32 drv h cmd ;;
               let speed := Z.land info 0xff in
               let temp := Z.land (Z.shiftr info 16) 0xff in
               let temp := if temp >? 127 then temp - 256 else temp in
               pct <- Eff.lift (speed_percent speed) ;;
               Eff.ret (pct, temp)
           | Some uniwill =>
               let speed_cmd := if fan_id =? 0 then R_UW_FANSPEED else R_UW_FANSPEED2 in
               let temp_cmd := if fan_id =? 0 then R_UW_FAN_TEMP else R_UW_FAN_TEMP2 in
               s <- ioctl_read_int32 drv h speed_cmd ;;
               c <- ioctl_read_int32 drv h temp_cmd ;;
               Eff.ret (s, c)
           | None => Eff.ret (0, 0)
           end)
          (fun _ => Eff.ret (0, 0))
  end.

(** The [for i in range(3)] loop of [set_fan_speed], over the channels
    still to visit; it yields the list [speeds]. *)
Fixpoint collect_speeds (drv : driver) (h fan_id speed_raw : Z)
         (channels : list Z) : io (list Z) :=
  match channels with
  | [] => Eff.ret []
  | i :: rest =>
      s <- (if i =? fan_id then Eff.ret speed_raw
            else
              cmd <- Eff.lift (PySeq.getitem CL_FANINFO i) ;;
              info <- ioctl_read_int32 drv h cmd ;;
              Eff.ret (Z.land info 0xff)) ;;
      ss <- collect_speeds drv h fan_id speed_raw rest ;;
      Eff.ret (s :: ss)
  end.

(** [speeds[0] | (speeds[1] << 8) | (speeds[2] << 16)] *)
Definition pack_speeds (speeds : list Z) : Z :=
  Z.lor (Z.lor (nth 0 speeds 0) (Z.shiftl (nth 1 speeds 0) 8))
        (Z.shiftl (nth 2 speeds 0) 16).

Definition set_fan_speed (drv : driver) (self : t) (fan_id speed_pct : Z) : io unit :=
  match fd self with
  | None => Eff.ret tt
  | Some h =>
      if h =? 0 then Eff.ret tt
      else
        Eff.try_except
          (match platform self with
           | Some clevo =>
               speed_raw <- Eff.lift (speed_raw_cl speed_pct) ;;
               speeds <- collect_speeds drv h fan_id speed_raw [0; 1; 2] ;;
               ioctl_write_int32 drv h W_CL_FANSPEED (pack_speeds speeds)
           | Some uniwill =>
               let speed_raw := speed_pct * 2 in
               let cmd := if fan_id =? 0 then W_UW_FANSPEED else W_UW_FANSPEED2 in
               ioctl_write_int32 drv h cmd speed_raw
           | None => Eff.ret tt
           end)
          (fun _ => Eff.ret tt)
  end.

Definition set_auto (drv : driver) (self : t) : io unit :=
  match fd self with
  | None => Eff.ret tt
  | Some h =>
      if h =? 0 then Eff.ret tt
      else
        Eff.try_except
          (match platform self with
           | Some clevo => ioctl_write_int32 drv h W_CL_FANAUTO 0x0f
           | Some uniwill => ioctl_cmd drv h W_UW_FANAUTO
           | None => Eff.ret tt
           end)
          (fun _ => Eff.ret tt)
  end.

Definition set_manual_mode (drv : driver) (self : t) : io unit :=
  match fd self with
  | None => Eff.ret tt
  | Some h =>
      if h =? 0 then Eff.ret tt
      else
        Eff.try_except
          (match platform self with
           | Some clevo => ioctl_write_int32 drv h W_CL_FANAUTO 0
           | Some uniwill => Eff.ret tt
           | None => Eff.ret tt
           end)
          (fun _ => Eff.ret tt)
  end.

(** Byte [k] of a packed word. *)
Definition channel_byte (word k : Z) : Z :=
  Z.land (Z.shiftr word (8 * k)) 0xff.

(** The nearest integer to [raw * 100 / 255], computed on integers:
    the fraction is never half way between two integers, since 51 is odd. *)
Definition percent_of_raw (raw : Z) : Z := (raw * 200 + 255) / 510.

(** The check that [round(raw * 100 / 255)] is [percent_of_raw raw]. *)
Definition decodes_as_nearest (raw : Z) : bool :=
  match speed_percent raw with
  | Ret pct => pct =? percent_of_raw raw
  | Exc _ => false
  end.

(** The check that [int(pct * 2.55)] is a byte that decodes to [pct]. *)
Definition encodes_and_returns (pct : Z) : bool :=
  match speed_raw_cl pct with
  | Ret raw =>
      (0 <=? raw) && (raw <? 256) &&
      match speed_percent raw with
      | Ret back => back =? pct
      | Exc _ => false
      end
  | Exc _ => false
  end.


Definition faninfo_request (i : Z) : Z := nth (Z.to_nat i) CL_FANINFO 0.

(** A driver whose every status word is 0x00C80080 (raw speed 0x80,
    temperature byte 0xC8) and whose every write succeeds. *)
Definition demo_driver : driver :=
  {| drv_read := fun _ _ => Some 0x00C80080;
     drv_write := fun _ _ _ => true;
     drv_cmd := fun _ _ => true |}.

(** The operations a caller issues on the controller, what each
    returns, and a caller that issues a sequence of them. *)
Inductive op : Type :=
| GetFanInfo (fan_id : Z)
| SetFanSpeed (fan_id speed_pct : Z)
| SetAuto
| SetManualMode.

Inductive answer : Type :=
| Reading (speed temp : Z)
| Done.

Definition call (drv : driver) (self : t) (o : op) : io answer :=
  match o with
  | GetFanInfo fan_id =>
      r <- get_fan_info drv self fan_id ;; Eff.ret (Reading (fst r) (snd r))
  | SetFanSpeed fan_id speed_pct =>
      set_fan_speed drv self fan_id speed_pct ;;; Eff.ret Done
  | SetAuto => set_auto drv self ;;; Eff.ret Done
  | SetManualMode => set_manual_mode drv self ;;; Eff.ret Done
  end.

Fixpoint calls (drv : driver) (self : t) (os : list op) : io (list answer) :=
  match os with
  | [] => Eff.ret []
  | o :: rest =>
      a <- call drv self o ;;
      r <- calls drv self rest ;;
      Eff.ret (a :: r)
  end.

(** What an operation returns when nothing is done: the reading (0, 0),
    or nothing. *)
Definition inert (o : op) : answer :=
  match o with
  | GetFanInfo _ => Reading 0 0
  | _ => Done
  end.

End FanController.

(* ------------------------------------------------------------------ *)
(** ** NotebookControlApp: editing the points of the current curve *)

Module NotebookControlApp.
Import FanCurve.
Local Open Scope eff_scope.

(** The [for i in range(len(curve.points) - 1)] loop of
    [add_curve_point], which stops at its first insertion. *)
Fixpoint add_curve_point_loop (pts : list point) : list point :=
  match pts with
  | (t1, s1) :: (((t2, s2) :: _) as tl) =>
      if t2 - t1 >? 5
      then (t1, s1) :: ((t1 + t2) / 2, (s1 + s2) / 2) :: tl
      else (t1, s1) :: add_curve_point_loop tl
  | _ => pts
  end.

(** [add_curve_point], as a function of [curve.points]. *)
Definition add_curve_point (points : list point) : list point :=
  if Z.of_nat (length points) >=? 15 then points
  else add_curve_point_loop points.

(** [remove_curve_point] over [curve.points]; [sel] is the index of the
    selected row of the table, [None] when no row is selected. *)
Definition remove_curve_point (sel : option Z) : Eff.M (list point) unit :=
  fun points =>
    if Z.of_nat (length points) <=? 2 then (Ret tt, points)
    else match sel with
         | None => (Ret tt, points)
         | Some idx =>
             match PySeq.delitem points idx with
             | Ret points' => (Ret tt, points')
             | Exc e => (Exc e, points)
             end
         end.

(** The temperature gap between the points at [i] and [i + 1]. *)
Definition gap_at (pts : list point) (i : nat) : option Z :=
  match nth_error pts i, nth_error pts (S i) with
  | Some (t1, _), Some (t2, _) => Some (t2 - t1)
  | _, _ => None
  end.

(** [pts'] is [pts] with the midpoint of the points at [i] and [i + 1]
    inserted between them. *)
Definition bisected_at (pts : list point) (i : nat) (pts' : list point) : Prop :=
  exists t1 s1 t2 s2,
    nth_error pts i = Some (t1, s1) /\
    nth_error pts (S i) = Some (t2, s2) /\
    pts' = firstn (S i) pts ++ ((t1 + t2) / 2, (s1 + s2) / 2) :: skipn (S i) pts.

(** Insertion at a widest gap among those that exceed 5 degrees. *)
Definition bisects_widest_gap (pts pts' : list point) : Prop :=
  exists i g,
    gap_at pts i = Some g /\ g > 5 /\
    (forall j h, gap_at pts j = Some h -> h <= g) /\
    bisected_at pts i pts'.

(** Every gap before position [i] is at most 5 degrees. *)
Definition no_gap_before (pts : list point) (i : nat) : Prop :=
  forall j h, (j < i)%nat -> gap_at pts j = Some h -> h <= 5.

End NotebookControlApp.

(* ------------------------------------------------------------------ *)
(** ** LED directories of a three-zone keyboard *)

Module LedPaths.
Import String.

Definition zone0 : string := "/sys/class/leds/rgb:kbd_backlight".
Definition zone1 : string := "/sys/class/leds/rgb:kbd_backlight_1".
Definition zone2 : string := "/sys/class/leds/rgb:kbd_backlight_2".

End LedPaths.

(* ------------------------------------------------------------------ *)
(** ** KeyboardBacklightController over sysfs *)

Module KeyboardBacklightController.
Import LedPaths.
Local Open Scope eff_scope.

Definition path : Type := String.string.

(** The attribute files of a LED directory. *)
Inductive attr_name : Type := brightness | multi_intensity.

(** An attribute file: the integers its text holds, separated by blanks,
    and whether opening it for reading, or for writing, succeeds. *)
Record attr : Type := {
  content : list Z;
  can_read : bool;
  can_write : bool
}.

(** The part of the file system under [/sys/class/leds]: the attribute
    files by LED directory, [None] where [os.path.exists] is false, and
    the writes attempted so far, oldest first. *)
Record sysfs : Type := {
  file : path -> attr_name -> option attr;
  attempts : list (path * attr_name * list Z)
}.

Definition attr_name_eqb (a b : attr_name) : bool :=
  match a, b with
  | brightness, brightness => true
  | multi_intensity, multi_intensity => true
  | _, _ => false
  end.

Definition exists_ (fs : sysfs) (p : path) (a : attr_name) : bool :=
  match file fs p a with
  | Some _ => true
  | None => false
  end.

(** [open(..., 'r')] and [f.read().strip().split()] *)
Definition read_attr (fs : sysfs) (p : path) (a : attr_name) : res (list Z) :=
  match file fs p a with
  | Some f => if can_read f then Ret (content f) else Exc OSError
  | None => Exc OSError
  end.

Definition store (fs : sysfs) (p : path) (a : attr_name) (f : attr) :
  path -> attr_name -> option attr :=
  fun p' a' =>
    if String.eqb p' p && attr_name_eqb a' a then Some f else file fs p' a'.

(** [open(..., 'w')] and [f.write(...)] of the integers [v]. *)
Definition write_attr (p : path) (a : attr_name) (v : list Z) : Eff.M sysfs unit :=
  fun fs =>
    let log := attempts fs ++ [(p, a, v)] in
    match file fs p a with
    | Some f =>
        if can_write f
        then (Ret tt,
              {| file := store fs p a
                           {| content := v; can_read := can_read f;
                              can_write := can_write f |};
                 attempts := log |})
        else (Exc OSError, {| file := file fs; attempts := log |})
    | None => (Exc OSError, {| file := file fs; attempts := log |})
    end.

Record t : Type := {
  kbd_backlight_paths : list path;
  max_brightness : Z;
  has_rgb : bool;
  saved_brightness : Z;
  saved_color : Z * Z * Z
}.

Definition get_brightness (self : t) (fs : sysfs) : Z :=
  match kbd_backlight_paths self with
  | [] => 0
  | p0 :: _ =>
      if exists_ fs p0 brightness
      then match read_attr fs p0 brightness with
           | Ret [v] => v
           | _ => 0
           end
      else 0
  end.

(** The loop of [set_brightness] over the paths still to visit. *)
Fixpoint set_brightness_loop (b : Z) (paths : list path) : Eff.M sysfs bool :=
  match paths with
  | [] => Eff.ret true
  | p :: rest =>
      fun fs =>
        match (if exists_ fs p brightness
               then write_attr p brightness [b]
               else Eff.ret tt) fs with
        | (Ret _, fs') => set_brightness_loop b rest fs'
        | (Exc _, fs') => (Ret false, fs')
        end
  end.

Definition set_brightness (self : t) (b : Z) : Eff.M sysfs bool :=
  match kbd_backlight_paths self with
  | [] => Eff.ret false
  | _ =>
      let b := Z.max 0 (Z.min b (max_brightness self)) in
      set_brightness_loop b (kbd_backlight_paths self)
  end.

Definition get_color (self : t) (fs : sysfs) (zone : Z) : Z * Z * Z :=
  if negb (has_rgb self) || (zone >=? Z.of_nat (length (kbd_backlight_paths self)))
  then (255, 255, 255)
  else match PySeq.getitem (kbd_backlight_paths self) zone with
       | Ret p =>
           if exists_ fs p multi_intensity
           then match read_attr fs p multi_intensity with
                | Ret (r :: g :: b :: _) => (r, g, b)
                | _ => (255, 255, 255)
                end
           else (255, 255, 255)
       | Exc _ => (255, 255, 255)
       end.

(** The loop of [set_color] over the zones still to visit. *)
Fixpoint set_color_loop (self : t) (r g b : Z) (zones : list Z) : Eff.M sysfs bool :=
  match zones with
  | [] => Eff.ret true
  | z :: rest =>
      if z >=? Z.of_nat (length (kbd_backlight_paths self))
      then set_color_loop self r g b rest
      else
        fun fs =>
          match (p <- Eff.lift (PySeq.getitem (kbd_backlight_paths self) z) ;;
                 if exists_ fs p multi_intensity
                 then write_attr p multi_intensity [r; g; b]
                 else Eff.ret tt) fs with
          | (Ret _, fs') => set_color_loop self r g b rest fs'
          | (Exc _, fs') => (Ret false, fs')
          end
  end.

(** [range(n)] *)
Definition range (n : nat) : list Z := map Z.of_nat (seq 0 n).

Definition set_color (self : t) (r g b : Z) (zone : option Z) : Eff.M sysfs bool :=
  if negb (has_rgb self) then Eff.ret false
  else
    let r := Z.max 0 (Z.min 255 r) in
    let g := Z.max 0 (Z.min 255 g) in
    let b := Z.max 0 (Z.min 255 b) in
    let zones_to_set :=
      match zone with
      | Some z => [z]
      | None => range (length (kbd_backlight_paths self))
      end in
    set_color_loop self r g b zones_to_set.

Definition set_color_all_zones (self : t) (r g b : Z) : Eff.M sysfs bool :=
  set_color self r g b None.

Definition save_state (self : t) (fs : sysfs) : t :=
  {| kbd_backlight_paths := kbd_backlight_paths self;
     max_brightness := max_brightness self;
     has_rgb := has_rgb self;
     saved_brightness := get_brightness self fs;
     saved_color := if has_rgb self then get_color self fs 0
                    else saved_color self |}.

Definition restore_state (self : t) : Eff.M sysfs unit :=
  set_brightness self (saved_brightness self) ;;;
  (if has_rgb self
   then let '(r, g, b) := saved_color self in
        set_color_all_zones self r g b ;;; Eff.ret tt
   else Eff.ret tt).

(** The shape shared by the loops of [set_brightness] and [set_color]:
    write the integers [v] to attribute [a] of each LED directory in turn,
    skipping a directory without the attribute, and return [False] at the
    first write that raises. *)
Fixpoint write_each (a : attr_name) (v : list Z) (paths : list path) :
  Eff.M sysfs bool :=
  match paths with
  | [] => Eff.ret true
  | p :: rest =>
      fun fs =>
        match (if exists_ fs p a then write_attr p a v else Eff.ret tt) fs with
        | (Ret _, fs') => write_each a v rest fs'
        | (Exc _, fs') => (Ret false, fs')
        end
  end.

(** A write to [a] of [p] would go through, or the file is absent. *)
Definition writable_or_absent (fs : sysfs) (a : attr_name) (p : path) : bool :=
  match file fs p a with
  | Some f => can_write f
  | None => true
  end.

(** The file is there and a write to it raises. *)
Definition write_fails (fs : sysfs) (a : attr_name) (p : path) : bool :=
  match file fs p a with
  | Some f => negb (can_write f)
  | None => false
  end.

(** The files once [v] is stored in attribute [a] of the directories
    [done]: those files hold [v], every other file is as in [fs]. *)
Definition file_after (a : attr_name) (v : list Z) (done : list path)
           (fs : sysfs) : path -> attr_name -> option attr :=
  fun q a' =>
    match file fs q a' with
    | Some f =>
        if attr_name_eqb a' a && existsb (String.eqb q) done
        then Some {| content := v; can_read := can_read f;
                     can_write := can_write f |}
        else Some f
    | None => None
    end.

(** The attempts a loop over [done] adds to the log. *)
Definition attempts_of (a : attr_name) (v : list Z) (done : list path)
           (fs : sysfs) : list (path * attr_name * list Z) :=
  map (fun q => (q, a, v)) (filter (fun q => exists_ fs q a) done).

(** Every zone that has the attribute sees a write attempt. *)
Definition all_zones_attempted (self : t) (a : attr_name) (fs fs' : sysfs) : Prop :=
  forall q, In q (kbd_backlight_paths self) -> exists_ fs q a = true ->
            exists v, In (q, a, v) (attempts fs').

(** The integers held by a file, when it is there. *)
Definition content_of (fs : sysfs) (p : path) (a : attr_name) : option (list Z) :=
  option_map content (file fs p a).

(** Three RGB zones, [LedPaths.zone0] to [LedPaths.zone2], each at
    brightness 120 and red; every file is readable, and writable except
    those of the directory [ro]. *)
Definition sample_fs (ro : path) : sysfs :=
  {| file := fun q a =>
       if existsb (String.eqb q) [zone0; zone1; zone2]
       then Some {| content := match a with
                               | brightness => [120]
                               | multi_intensity => [255; 0; 0]
                               end;
                    can_read := true;
                    can_write := negb (String.eqb q ro) |}
       else None;
     attempts := [] |}.

Definition sample_kbd : t :=
  {| kbd_backlight_paths := [zone0; zone1; zone2];
     max_brightness := 255;
     has_rgb := true;
     saved_brightness := 255;
     saved_color := (255, 255, 255) |}.

(** A logged attempt writes the integers [v] to attribute [a]. *)
Definition carries (a : attr_name) (v : list Z)
           (e : path * attr_name * list Z) : Prop :=
  snd (fst e) = a /\ snd e = v.

End KeyboardBacklightController.

(* ------------------------------------------------------------------ *)
(** ** FanCurve objects: construction, copy and the edit dialog *)

Module FanCurveObject.
Import FanCurve.
Local Open Scope eff_scope.

(** [list.sort(key=lambda p: p[0])].  Python's sort is stable, and a
    stable sort on a key has one possible result; it is computed here by
    insertion from the right, each point going in front of the first
    point that is not colder. *)
Fixpoint insert_by_temp (p : point) (l : list point) : list point :=
  match l with
  | [] => [p]
  | q :: tl =>
      if fst q <? fst p then q :: insert_by_temp p tl else p :: q :: tl
  end.

Definition sort_by_temp (l : list point) : list point :=
  fold_right insert_by_temp [] l.

(** [FanCurve.__init__]: [points] is [None], or a list; an empty list is
    falsy, like [None]. *)
Definition init (points : option (list point)) : list point :=
  sort_by_temp (match points with
                | Some (p :: l) => p :: l
                | _ => DEFAULT
                end).

(** [FanCurve.copy], from [self.points] to the points of the copy. *)
Definition copy (points : list point) : list point := init (Some points).

(** [l[i] = x] *)
Definition setitem {A : Type} (l : list A) (i : Z) (x : A) : res (list A) :=
  let n := Z.of_nat (length l) in
  let j := if i <? 0 then i + n else i in
  if (0 <=? j) && (j <? n)
  then Ret (firstn (Z.to_nat j) l ++ x :: skipn (S (Z.to_nat j)) l)
  else Exc IndexError.

(** [save] of [open_edit_dialog], over [curve.points]: the point at [idx]
    is replaced by the values of the two spin boxes and the list sorted
    again. *)
Definition save (idx temp speed : Z) : Eff.M (list point) unit :=
  fun points =>
    match setitem points idx (temp, speed) with
    | Ret points' => (Ret tt, sort_by_temp points')
    | Exc e => (Exc e, points)
    end.

(** [reset_curve] *)
Definition reset_curve (points : list point) : list point := DEFAULT.

(** Temperatures in ascending order, equal ones allowed. *)
Fixpoint nondecreasing (pts : list point) : Prop :=
  match pts with
  | p1 :: ((p2 :: _) as tl) => fst p1 <= fst p2 /\ nondecreasing tl
  | _ => True
  end.

(** The points at temperature [t], in the order of the list. *)
Definition at_temp (t : Z) (pts : list point) : list point :=
  filter (fun p => fst p =? t) pts.

End FanCurveObject.

(* ------------------------------------------------------------------ *)
(** ** FanController: connecting, and the fan loop of the application *)

Module FanControllerSetup.
Import Ioctl FanController.
Local Open Scope eff_scope.

(** [connect].  [opened] is the outcome of [os.open(DEVICE, os.O_RDWR)]:
    the descriptor, or [None] when it raises.  The probes follow in the
    order of the source, and any exception leaves both fields [None]. *)
Definition connect (drv : driver) (opened : option Z) (self : t) : io t :=
  match opened with
  | None => Eff.ret {| fd := None; platform := None |}
  | Some h =>
      Eff.try_except
        (cl <- ioctl_read_int32 drv h R_HWCHECK_CL ;;
         if cl =? 1 then Eff.ret {| fd := Some h; platform := Some clevo |}
         else
           uw <- ioctl_read_int32 drv h R_HWCHECK_UW ;;
           if uw =? 1 then Eff.ret {| fd := Some h; platform := Some uniwill |}
           else Eff.ret {| fd := Some h; platform := platform self |})
        (fun _ => Eff.ret {| fd := None; platform := None |})
  end.

(** [__init__]: both fields [None], then [connect]. *)
Definition init (drv : driver) (opened : option Z) : io t :=
  connect drv opened {| fd := None; platform := None |}.

(** [disconnect]: the new state, and the descriptor handed to
    [os.close], if any. *)
Definition disconnect (self : t) : t * option Z :=
  match fd self with
  | Some h =>
      if h =? 0 then (self, None)
      else ({| fd := None; platform := platform self |}, Some h)
  | None => (self, None)
  end.

Definition is_read (ev : event) : bool :=
  match ev with
  | EvRead _ _ => true
  | _ => false
  end.

Definition is_write (ev : event) : bool :=
  match ev with
  | EvWrite _ _ _ => true
  | _ => false
  end.

(** What the fan loop reads from the window: the curve switch, the curve
    mode and the three curves. *)
Record fan_settings : Type := {
  auto_control : bool;
  curve_mode : Z;
  fan_curve_common : list FanCurve.point;
  fan_curve_cpu : list FanCurve.point;
  fan_curve_gpu : list FanCurve.point
}.

(** One turn of the loop of [start_fan_thread], between two sleeps; the
    labels it updates are left out. *)
Definition fan_loop_step (drv : driver) (self : t) (cfg : fan_settings) : io unit :=
  Eff.try_except
    (cpu <- get_fan_info drv self 0 ;;
     gpu <- get_fan_info drv self 1 ;;
     if auto_control cfg then
       if curve_mode cfg =? 0 then
         let max_temp := Z.max (snd cpu) (snd gpu) in
         speed <- Eff.lift (FanCurve.get_speed (fan_curve_common cfg) max_temp) ;;
         set_fan_speed drv self 0 speed ;;;
         set_fan_speed drv self 1 speed
       else
         cpu_speed <- Eff.lift (FanCurve.get_speed (fan_curve_cpu cfg) (snd cpu)) ;;
         gpu_speed <- Eff.lift (FanCurve.get_speed (fan_curve_gpu cfg) (snd gpu)) ;;
         set_fan_speed drv self 0 cpu_speed ;;;
         set_fan_speed drv self 1 gpu_speed
     else Eff.ret tt)
    (fun _ => Eff.ret tt).

(** A driver whose every read request fails. *)
Definition failing_driver : driver :=
  {| drv_read := fun _ _ => None;
     drv_write := fun _ _ _ => true;
     drv_cmd := fun _ _ => true |}.

End FanControllerSetup.

(* ------------------------------------------------------------------ *)
(** ** KeyboardBacklightController: detection *)

Module BacklightDetection.
Import KeyboardBacklightController.

Definition BACKLIGHT_TYPE_NONE : Z := 0x00.
Definition BACKLIGHT_TYPE_FIXED_COLOR : Z := 0x01.
Definition BACKLIGHT_TYPE_3_ZONE_RGB : Z := 0x02.
Definition BACKLIGHT_TYPE_1_ZONE_RGB : Z := 0x06.
Definition BACKLIGHT_TYPE_PER_KEY_RGB : Z := 0xf3.

(** What [glob.glob] finds under [/sys/class/leds] for each of the three
    patterns of [detect_backlight]. *)
Record led_listing : Type := {
  glob_kbd_backlight : list path;
  glob_keyboard : list path;
  glob_rgb : list path
}.

(** [list(dict.fromkeys(l))]: each path once, at its first place. *)
Fixpoint fromkeys (l : list path) : list path :=
  match l with
  | [] => []
  | p :: tl => p :: filter (fun q => negb (String.eqb q p)) (fromkeys tl)
  end.

(** The controller after [__init__], with the two fields that only
    detection sets. *)
Record detected : Type := {
  controller : t;
  backlight_type : Z;
  num_zones : Z
}.

(** [int(f.read().strip())] on the [max_brightness] file of a directory,
    when it exists; [None] when it does not. *)
Definition read_max_brightness (max_file : path -> option attr) (p : path) :
  option (res Z) :=
  match max_file p with
  | None => None
  | Some f =>
      Some (if can_read f
            then match content f with
                 | [v] => Ret v
                 | _ => Exc ValueError
                 end
            else Exc OSError)
  end.

(** [__init__] followed by [detect_backlight]; [max_file] gives the
    [max_brightness] file of a directory. *)
Definition detect_backlight (ls : led_listing) (fs : sysfs)
           (max_file : path -> option attr) : detected :=
  let led_dirs := match glob_kbd_backlight ls with
                  | [] => glob_keyboard ls ++ glob_rgb ls
                  | l => l
                  end in
  let rgb := existsb (fun d => exists_ fs d multi_intensity) led_dirs in
  let paths := fromkeys led_dirs in
  let make := fun paths m rgb ty zones =>
    {| controller := {| kbd_backlight_paths := paths;
                        max_brightness := m;
                        has_rgb := rgb;
                        saved_brightness := 255;
                        saved_color := (255, 255, 255) |};
       backlight_type := ty;
       num_zones := zones |} in
  match paths with
  | [] => make paths 255 rgb BACKLIGHT_TYPE_NONE 0
  | first_path :: _ =>
      match read_max_brightness max_file first_path with
      | Some (Exc _) => make paths 255 rgb BACKLIGHT_TYPE_NONE 0
      | other =>
          let m := match other with
                   | Some (Ret v) => v
                   | _ => 255
                   end in
          if rgb then
            if Z.of_nat (length paths) >=? 3
            then make paths m true BACKLIGHT_TYPE_3_ZONE_RGB 3
            else make paths m true BACKLIGHT_TYPE_1_ZONE_RGB 1
          else make paths m false BACKLIGHT_TYPE_FIXED_COLOR 1
      end
  end.

(** [is_available] *)
Definition is_available (d : detected) : bool :=
  negb (backlight_type d =? BACKLIGHT_TYPE_NONE).

End BacklightDetection.

(* ------------------------------------------------------------------ *)
(** ** The brightness levels of a fade *)

Module Fade.
Import PyNum.
Local Open Scope res_scope.

Definition steps : Z := 20.

Definition fsub : float -> float -> float := SFsub prec emax.

(** [int(start_brightness * (1 - i / steps))] of [fade_out_backlight] *)
Definition fade_out_brightness (start_brightness i : Z) : res Z :=
  q <- int_truediv i steps ;;
  one <- float_of_int 1 ;;
  s <- float_of_int start_brightness ;;
  int_of_float (fmul s (fsub one q)).

(** [int(current_brightness + (target_brightness - current_brightness) * i / steps)]
    of [fade_in_backlight] *)
Definition fade_in_brightness (current_brightness target_brightness i : Z) : res Z :=
  q <- int_truediv ((target_brightness - current_brightness) * i) steps ;;
  c <- float_of_int current_brightness ;;
  int_of_float (fadd c q).

(** [range(steps + 1)] *)
Definition step_range : list Z := map Z.of_nat (seq 0 21).

(** The brightness of each write of a fade that is not interrupted, in
    order.  A fade-in that finds the brightness at or above its target
    makes the one write of the target. *)
Definition fade_out_levels (start_brightness : Z) : list (res Z) :=
  map (fade_out_brightness start_brightness) step_range.

Definition fade_in_levels (current_brightness target_brightness : Z) : list (res Z) :=
  if current_brightness >=? target_brightness then [Ret target_brightness]
  else map (fade_in_brightness current_brightness target_brightness) step_range.

(** The levels when none of them raised. *)
Fixpoint values (l : list (res Z)) : option (list Z) :=
  match l with
  | [] => Some []
  | Ret v :: tl =>
      match values tl with
      | Some vs => Some (v :: vs)
      | None => None
      end
  | Exc _ :: _ => None
  end.

(** Checks on the levels from a start brightness, run for each start. *)
Definition descends (l : list Z) : bool :=
  forallb (fun i => (0 <=? nth (S i) l 0) && (nth (S i) l 0 <=? nth i l 0))
          (seq 0 20).

Definition fade_out_ok (start : Z) : bool :=
  match values (fade_out_levels start) with
  | Some l =>
      (length l =? 21)%nat && (nth 0 l 0 =? start) && (nth 20 l 1 =? 0) &&
      descends l
  | None => false
  end.

Definition fade_in_starts (current : Z) : bool :=
  match fade_in_brightness current current 0 with
  | Ret v => v =? current
  | Exc _ => false
  end.

Definition fade_in_ends (current gap : Z) : bool :=
  match fade_in_brightness current (current + 1 + gap) steps with
  | Ret v => v =? current + 1 + gap
  | Exc _ => false
  end.

End Fade.

(* ================================================================== *)
(** * Properties *)

(** Settles a comparison of integers, [(a <=? b) = true] and the like,
    from the linear facts at hand. *)
Ltac test_lia :=
  symmetry; rewrite ?Z.geb_leb, ?Z.gtb_ltb;
  first [apply Z.leb_le | apply Z.leb_gt | apply Z.ltb_lt | apply Z.ltb_ge];
  lia.

(* ------------------------------------------------------------------ *)
(** ** FanCurve.get_speed *)

Section GetSpeed.
Import FanCurve PyNum.

Lemma ascending_tail (p : point) (l : list point) :
  ascending (p :: l) -> ascending l.
Proof.
  destruct l as [|q l]; simpl; [trivial | intros [_ H]; exact H].
Qed.

Lemma ascending_head_lt (l : list point) :
  forall p q, ascending (p :: l) -> In q l -> fst p < fst q.
Proof.
  induction l as [|a l IH]; intros p q Hasc Hin; [contradiction|].
  destruct Hasc as [Hpa Hrest].
  destruct Hin as [<- | Hin]; [exact Hpa|].
  specialize (IH a q Hrest Hin). lia.
Qed.

Lemma ascending_app_r (l1 l2 : list point) :
  ascending (l1 ++ l2) -> ascending l2.
Proof.
  induction l1 as [|a l1 IH]; simpl app; [trivial|].
  intros H. apply IH. exact (ascending_tail _ _ H).
Qed.

Lemma last_in (l : list point) (p d : point) : In (last (p :: l) d) (p :: l).
Proof.
  revert p. induction l as [|a l IH]; intros p; [left; reflexivity|].
  right. exact (IH a).
Qed.

Lemma ascending_head_le_last (l : list point) (p d : point) :
  ascending (p :: l) -> fst p <= fst (last (p :: l) d).
Proof.
  intros Hasc. destruct (last_in l p d) as [<- | Hin]; [lia|].
  pose proof (ascending_head_lt l p _ Hasc Hin). lia.
Qed.

Lemma last_app_cons (l1 l2 : list point) (p d : point) :
  last (l1 ++ p :: l2) d = last (p :: l2) d.
Proof.
  induction l1 as [|a l1 IH]; [reflexivity|].
  simpl app. rewrite <- IH.
  destruct (l1 ++ p :: l2) eqn:E; [destruct l1; discriminate | reflexivity].
Qed.

(** The loop passes over every bracket that ends at or below [t1] and
    stops at the bracket [(t1, s1), (t2, s2)] that holds [temp]. *)
Lemma scan_bracket (pre post : list point) (t1 s1 t2 s2 temp dflt : Z) :
  ascending (pre ++ (t1, s1) :: (t2, s2) :: post) ->
  t1 < temp < t2 ->
  scan (pre ++ (t1, s1) :: (t2, s2) :: post) temp dflt
  = interpolate t1 s1 t2 s2 temp.
Proof.
  intros Hasc Hin. induction pre as [|[a sa] pre IH].
  - simpl.
    replace ((t1 <=? temp) && (temp <=? t2)) with true; [reflexivity|].
    symmetry. apply andb_true_iff. split; apply Z.leb_le; lia.
  - specialize (IH (ascending_tail _ _ Hasc)).
    simpl app. destruct pre as [|[b sb] pre'].
    + simpl app in *. simpl scan at 1.
      replace ((a <=? temp) && (temp <=? t1)) with false; [exact IH|].
      symmetry. apply andb_false_iff. right. apply Z.leb_gt. lia.
    + simpl app in *. simpl scan at 1.
      assert (Hb : b < t1).
      { apply ascending_tail in Hasc.
        apply (ascending_head_lt _ (b, sb) (t1, s1) Hasc).
        apply in_or_app. right. left. reflexivity. }
      replace ((a <=? temp) && (temp <=? b)) with false; [exact IH|].
      symmetry. apply andb_false_iff. right. apply Z.leb_gt. lia.
Qed.

Lemma last_default (l : list point) (d d' : point) :
  l <> [] -> last l d = last l d'.
Proof.
  induction l as [|a l IH]; [congruence|]. intros _.
  destruct l as [|b l]; [reflexivity|].
  change (last (b :: l) d = last (b :: l) d'). apply IH. discriminate.
Qed.

(** Below or at the first point: its speed. *)
Lemma get_speed_low (pts : list point) (temp : Z) (d : point) :
  pts <> [] -> temp <= fst (hd d pts) ->
  get_speed pts temp = Ret (snd (hd d pts)).
Proof.
  destruct pts as [|[t0 s0] l]; [congruence|]. intros _ Hle. simpl in *.
  apply Z.leb_le in Hle. rewrite Hle. reflexivity.
Qed.

(** At or above the last point: its speed. *)
Lemma get_speed_high (pts : list point) (temp : Z) (d : point) :
  ascending pts -> (2 <= length pts)%nat -> fst (last pts d) <= temp ->
  get_speed pts temp = Ret (snd (last pts d)).
Proof.
  destruct pts as [|[t0 s0] [|q l]]; simpl length; try lia.
  intros Hasc _.
  rewrite (last_default _ d (t0, s0)) by discriminate.
  pose proof (ascending_head_lt (q :: l) (t0, s0) _ Hasc
                (last_in l q (t0, s0))) as Hlt.
  unfold get_speed.
  match goal with
  | |- context [@last point ?a ?b] =>
      assert (Hlt' : t0 < fst (@last point a b)) by exact Hlt;
      clear Hlt; revert Hlt'; generalize (@last point a b)
  end.
  intros [tn sn]. cbn [fst snd]. intros Hlt Hge.
  replace (temp <=? t0) with false by test_lia.
  replace (temp >=? tn) with true by test_lia.
  reflexivity.
Qed.

(** Strictly inside a bracket: the interpolation between its two points. *)
Lemma get_speed_between (pre post : list point) (t1 s1 t2 s2 temp : Z) :
  ascending (pre ++ (t1, s1) :: (t2, s2) :: post) ->
  t1 < temp < t2 ->
  get_speed (pre ++ (t1, s1) :: (t2, s2) :: post) temp
  = interpolate t1 s1 t2 s2 temp.
Proof.
  intros Hasc Hin.
  set (pts := pre ++ (t1, s1) :: (t2, s2) :: post) in *.
  assert (Hlast : t2 <= fst (last pts (0, 0))).
  { unfold pts. rewrite last_app_cons.
    change (last ((t1, s1) :: (t2, s2) :: post) (0, 0))
      with (last ((t2, s2) :: post) (0, 0)).
    apply (ascending_head_le_last post (t2, s2) (0, 0)).
    apply ascending_app_r in Hasc. exact (ascending_tail _ _ Hasc). }
  assert (Hne : pts <> []) by (unfold pts; destruct pre; discriminate).
  assert (Hhd : fst (hd (0, 0) pts) <= t1).
  { unfold pts in *. destruct pre as [|p pre]; simpl; [lia|].
    assert (fst p < fst (t1, s1)); [|simpl in *; lia].
    apply (ascending_head_lt _ p (t1, s1) Hasc).
    apply in_or_app. right. left. reflexivity. }
  pose proof (scan_bracket pre post t1 s1 t2 s2 temp) as Hscan.
  fold pts in Hscan.
  destruct pts as [|[t0 s0] l] eqn:Epts; [congruence|].
  unfold get_speed. cbn [hd fst] in Hhd.
  rewrite (last_default _ (0, 0) (t0, s0)) in Hlast by discriminate.
  revert Hlast.
  match goal with
  | |- context [@last point ?a ?b] => generalize (@last point a b)
  end.
  intros [tn sn]. cbn [fst]. intros Hlast.
  replace (temp <=? t0) with false by test_lia.
  replace (temp >=? tn) with false by test_lia.
  apply Hscan; assumption.
Qed.

(** C1, as amended.  On a curve of at least two points with strictly
    ascending temperatures, [get_speed] returns the first point's speed
    for a temperature at or below the first point, the last point's speed
    for a temperature at or above the last point, and for a temperature
    strictly between two consecutive points [(t1, s1)] and [(t2, s2)] the
    value of [s1 + (temp - t1) / (t2 - t1) * (s2 - s1)] computed in
    binary64 arithmetic (the division, the product and the sum each
    rounded to nearest) and then truncated toward zero. *)
Theorem get_speed_reference (pts : list point) (temp : Z) (d : point) :
  ascending pts -> (2 <= length pts)%nat ->
  (temp <= fst (hd d pts) -> get_speed pts temp = Ret (snd (hd d pts))) /\
  (fst (last pts d) <= temp -> get_speed pts temp = Ret (snd (last pts d))) /\
  (forall pre t1 s1 t2 s2 post,
      pts = pre ++ (t1, s1) :: (t2, s2) :: post ->
      t1 < temp < t2 ->
      get_speed pts temp = interpolate t1 s1 t2 s2 temp).
Proof.
  intros Hasc Hlen. repeat split.
  - apply get_speed_low. destruct pts; [simpl in Hlen; lia | discriminate].
  - apply get_speed_high; assumption.
  - intros pre t1 s1 t2 s2 post -> Hin. apply get_speed_between; assumption.
Qed.

Lemma get_speed_reference_witness :
  let pts := [(60, 50); (70, 70)] in
  get_speed pts 50 = Ret 50 /\
  get_speed pts 80 = Ret 70 /\
  get_speed pts 65 = interpolate 60 50 70 70 65.
Proof.
  intros pts.
  assert (Hasc : ascending pts) by (simpl; lia).
  assert (Hlen : (2 <= length pts)%nat) by (simpl; lia).
  split; [|split].
  - apply (proj1 (get_speed_reference pts 50 (0, 0) Hasc Hlen)). simpl. lia.
  - apply (proj1 (proj2 (get_speed_reference pts 80 (0, 0) Hasc Hlen))).
    simpl. lia.
  - apply (proj2 (proj2 (get_speed_reference pts 65 (0, 0) Hasc Hlen))
             [] 60 50 70 70 []); [reflexivity | lia].
Defined.

(** The interpolation of the text of the contract: between (60, 50) and
    (70, 70), 65 degrees give 60 percent. *)
Example get_speed_65 : get_speed [(60, 50); (70, 70)] 65 = Ret 60.
Proof. vm_compute. reflexivity. Qed.

(** On the built-in curve [get_speed] and the contract's [speed_for]
    agree at every whole temperature from 20 to 100 degrees. *)
Example get_speed_DEFAULT_exact :
  forallb (fun temp =>
             match get_speed DEFAULT temp with
             | Ret s => s =? speed_for DEFAULT temp
             | Exc _ => false
             end)
          (map (fun n => 20 + Z.of_nat n) (seq 0 81)) = true.
Proof. vm_compute. reflexivity. Qed.

(** C1 as the contract words it, with the formula read over the
    rationals, fails: between (30, 0) and (79, 49) the exact value at
    31 degrees is 1, while [1 / 49 * 49] is 0.9999999999999999 in
    binary64 and [get_speed] returns 0. *)
Lemma get_speed_exact_counterexample :
  let pts := [(30, 0); (79, 49)] in
  ascending pts /\ (2 <= length pts)%nat /\ 30 < 31 < 79 /\
  get_speed pts 31 = Ret 0 /\
  interpolate_exact 30 0 79 49 31 = 1 /\
  speed_for pts 31 = 1 /\
  get_speed pts 31 <> Ret (interpolate_exact 30 0 79 49 31).
Proof.
  simpl ascending. simpl length.
  repeat split; try lia; try (vm_compute; reflexivity).
  vm_compute. discriminate.
Qed.

End GetSpeed.

(* ------------------------------------------------------------------ *)
(** ** The clevo speed scale: raw bytes and percentages *)

Section SpeedScale.
Import PyNum FanController.

(** A boolean check over [0 .. n - 1] decides the property on the whole
    interval. *)
Lemma forallb_below (f : Z -> bool) (n : nat) :
  forallb f (map Z.of_nat (seq 0 n)) = true ->
  forall z, 0 <= z < Z.of_nat n -> f z = true.
Proof.
  intros Hall z Hz. rewrite forallb_forall in Hall. apply Hall.
  rewrite <- (Z2Nat.id z) by lia. apply in_map. apply in_seq. lia.
Qed.

Lemma speed_percent_nearest (raw : Z) :
  0 <= raw < 256 -> speed_percent raw = Ret (percent_of_raw raw).
Proof.
  intros Hraw.
  assert (Hall : forallb decodes_as_nearest (map Z.of_nat (seq 0 256)) = true)
    by (vm_compute; reflexivity).
  pose proof (forallb_below _ 256 Hall raw Hraw) as H.
  unfold decodes_as_nearest in H.
  destruct (speed_percent raw) as [pct|]; [|discriminate].
  apply Z.eqb_eq in H. congruence.
Qed.

(** [percent_of_raw raw] is the integer nearest to [raw * 100 / 255],
    and lies between 0 and 100. *)
Lemma percent_of_raw_nearest (raw : Z) :
  0 <= raw < 256 ->
  - 255 <= 200 * raw - 510 * percent_of_raw raw < 255 /\
  0 <= percent_of_raw raw <= 100.
Proof.
  intros Hraw. unfold percent_of_raw.
  Z.to_euclidean_division_equations. lia.
Qed.

Lemma speed_raw_cl_table (pct : Z) :
  0 <= pct <= 100 -> encodes_and_returns pct = true.
Proof.
  intros Hp.
  assert (Hall : forallb encodes_and_returns (map Z.of_nat (seq 0 101)) = true)
    by (vm_compute; reflexivity).
  apply (forallb_below _ 101 Hall). lia.
Qed.


(** C10.  For every whole percentage from 0 to 100 the byte written,
    [int(speed_pct * 2.55)], decodes through
    [round(raw * 100 / 255)] to the same percentage. *)
Theorem speed_roundtrip (speed_pct : Z) :
  0 <= speed_pct <= 100 ->
  exists raw,
    speed_raw_cl speed_pct = Ret raw /\
    0 <= raw < 256 /\
    speed_percent raw = Ret speed_pct.
Proof.
  intros Hp. pose proof (speed_raw_cl_table speed_pct Hp) as H.
  unfold encodes_and_returns in H.
  destruct (speed_raw_cl speed_pct) as [raw|]; [|discriminate].
  apply andb_true_iff in H. destruct H as [H Hback].
  apply andb_true_iff in H. destruct H as [H1 H2].
  exists raw. split; [reflexivity|]. split; [lia|].
  destruct (speed_percent raw) as [back|]; [|discriminate].
  apply Z.eqb_eq in Hback. congruence.
Qed.

Lemma speed_roundtrip_witness :
  exists raw,
    speed_raw_cl 100 = Ret raw /\ 0 <= raw < 256 /\ speed_percent raw = Ret 100.
Proof. apply (speed_roundtrip 100). lia. Defined.

(** The top of the scale is written as 254, not 255: [100 * 2.55] is
    254.99999999999997 in binary64. *)
Example speed_raw_cl_100 : speed_raw_cl 100 = Ret 254.
Proof. vm_compute. reflexivity. Qed.

End SpeedScale.

(* ------------------------------------------------------------------ *)
(** ** FanController *)

Section FanProtocol.
Import PyNum Ioctl FanController.

Lemma land_0xff (x : Z) : Z.land x 0xff = x mod 256.
Proof. change 0xff with (Z.ones 8). rewrite Z.land_ones by lia. reflexivity. Qed.

Lemma land_0xff_byte (x : Z) : 0 <= Z.land x 0xff < 256.
Proof. rewrite land_0xff. apply Z.mod_pos_bound. lia. Qed.

Lemma to_int32_range (v : Z) : - 2 ^ 31 <= to_int32 v < 2 ^ 31.
Proof.
  unfold to_int32.
  pose proof (Z.mod_pos_bound (v + 2 ^ 31) (2 ^ 32) ltac:(lia)). lia.
Qed.

Lemma ioctl_read_int32_some (drv : driver) (h req v : Z) (log : list event) :
  drv_read drv log req = Some v ->
  ioctl_read_int32 drv h req log = (Ret (to_int32 v), log ++ [EvRead h req]).
Proof. intros H. unfold ioctl_read_int32. rewrite H. reflexivity. Qed.

(** C6.  On clevo, [get_fan_info] makes one status read and decodes its
    32-bit word: the speed is the low byte rescaled from 0..255 to 0..100,
    [round(raw * 100 / 255)], which is the integer nearest to that
    fraction; the temperature is the byte at bits 16..23 read as a signed
    8-bit value (above 127 it is the byte minus 256). *)
Theorem get_fan_info_clevo (drv : driver) (h fan_id cmd w : Z) (log : list event) :
  h <> 0 ->
  PySeq.getitem CL_FANINFO fan_id = Ret cmd ->
  drv_read drv log cmd = Some w ->
  let word := to_int32 w in
  let raw := Z.land word 0xff in
  let field := Z.land (Z.shiftr word 16) 0xff in
  get_fan_info drv {| fd := Some h; platform := Some clevo |} fan_id log
  = (Ret (percent_of_raw raw, if field >? 127 then field - 256 else field),
     log ++ [EvRead h cmd]) /\
  speed_percent raw = Ret (percent_of_raw raw) /\
  - 255 <= 200 * raw - 510 * percent_of_raw raw < 255 /\
  0 <= percent_of_raw raw <= 100 /\
  - 2 ^ 31 <= word < 2 ^ 31 /\
  0 <= raw < 256 /\ 0 <= field < 256 /\
  - 128 <= (if field >? 127 then field - 256 else field) <= 127.
Proof.
  intros Hh Hcmd Hread word raw field.
  pose proof (land_0xff_byte word) as Hraw. fold raw in Hraw.
  pose proof (land_0xff_byte (Z.shiftr word 16)) as Hfield. fold field in Hfield.
  pose proof (speed_percent_nearest raw Hraw) as Hpct.
  pose proof (percent_of_raw_nearest raw Hraw) as [Hnear Hrange].
  repeat split; try assumption; try apply to_int32_range; try lia.
  - unfold get_fan_info. cbn [fd platform].
    apply Z.eqb_neq in Hh. rewrite Hh.
    unfold Eff.try_except, Eff.bind, Eff.lift, Eff.ret.
    rewrite Hcmd. rewrite (ioctl_read_int32_some _ _ _ _ _ Hread).
    fold word. fold raw. rewrite Hpct. fold field. reflexivity.
  - destruct (field >? 127) eqn:E; [|lia].
    apply Z.gtb_lt in E. lia.
  - destruct (field >? 127) eqn:E; [lia|].
    rewrite Z.gtb_ltb in E. apply Z.ltb_ge in E. lia.
Qed.

Lemma get_fan_info_clevo_witness :
  get_fan_info demo_driver {| fd := Some 3; platform := Some clevo |} 0 []
  = (Ret (50, -56), [EvRead 3 R_CL_FANINFO1]).
Proof.
  assert (H1 : 3 <> 0) by lia.
  assert (H2 : PySeq.getitem CL_FANINFO 0 = Ret R_CL_FANINFO1) by reflexivity.
  assert (H3 : drv_read demo_driver [] R_CL_FANINFO1 = Some 0x00C80080)
    by reflexivity.
  exact (proj1 (get_fan_info_clevo demo_driver 3 0 R_CL_FANINFO1 0x00C80080 []
                  H1 H2 H3)).
Defined.

(** C3.  With no open device handle every operation returns at once: the
    reading is (0, 0) for every fan index, nothing raises, and no ioctl is
    issued, whatever the platform field holds; and so for every sequence
    of operations a caller issues. *)
Theorem disconnected_noop (drv : driver) (plat : option platform_t)
        (fan_id speed_pct : Z) (os : list op) (log : list event) :
  let self := {| fd := None; platform := plat |} in
  get_fan_info drv self fan_id log = (Ret (0, 0), log) /\
  set_fan_speed drv self fan_id speed_pct log = (Ret tt, log) /\
  set_auto drv self log = (Ret tt, log) /\
  set_manual_mode drv self log = (Ret tt, log) /\
  calls drv self os log = (Ret (map inert os), log).
Proof.
  intros self. repeat split.
  induction os as [|o rest IH]; [reflexivity|].
  cbn [calls map]. unfold Eff.bind at 1.
  assert (Hcall : call drv self o log = (Ret (inert o), log))
    by (destruct o; reflexivity).
  rewrite Hcall. unfold Eff.bind at 1. rewrite IH. reflexivity.
Qed.

(** A byte and a value shifted past it share no bit, so [or] adds them. *)
Lemma lor_shiftl_add (a b n : Z) :
  0 <= n -> 0 <= a < 2 ^ n -> Z.lor a (Z.shiftl b n) = a + b * 2 ^ n.
Proof.
  intros Hn Ha.
  assert (Hdisj : Z.land a (Z.shiftl b n) = 0).
  { apply Z.bits_inj'. intros m Hm.
    rewrite Z.land_spec, Z.bits_0.
    destruct (Z.ltb_spec m n) as [Hlt | Hge].
    - rewrite (Z.shiftl_spec_low b n m Hlt). apply andb_false_r.
    - rewrite <- (Z.mod_small a (2 ^ n)) by lia.
      rewrite Z.mod_pow2_bits_high by lia. reflexivity. }
  rewrite <- Z.lxor_lor by exact Hdisj.
  rewrite <- Z.add_nocarry_lxor by exact Hdisj.
  rewrite Z.shiftl_mul_pow2 by lia. reflexivity.
Qed.




Lemma getitem_CL_FANINFO (i : Z) :
  0 <= i < 3 -> PySeq.getitem CL_FANINFO i = Ret (faninfo_request i).
Proof.
  intros Hi. assert (Hc : i = 0 \/ i = 1 \/ i = 2) by lia.
  destruct Hc as [-> | [-> | ->]]; reflexivity.
Qed.




(** A write to channel 1 while channels 0 and 2 report raw speeds 0x80:
    one word, 0x807F80, goes out after the two reads. *)
Example set_fan_speed_channel_1 :
  set_fan_speed demo_driver {| fd := Some 3; platform := Some clevo |} 1 50 []
  = (Ret tt, [EvRead 3 R_CL_FANINFO1; EvRead 3 R_CL_FANINFO3;
              EvWrite 3 W_CL_FANSPEED 0x807F80]).
Proof. vm_compute. reflexivity. Qed.

(** Above 100 percent the raw speed no longer fits its byte: 150 percent
    on channel 0 is 0x17E, and the byte of channel 1 in the word written
    is 0x81 while the channel reported 0x80. *)
Example set_fan_speed_over_range :
  set_fan_speed demo_driver {| fd := Some 3; platform := Some clevo |} 0 150 []
  = (Ret tt, [EvRead 3 R_CL_FANINFO2; EvRead 3 R_CL_FANINFO3;
              EvWrite 3 W_CL_FANSPEED 0x80817E]) /\
  channel_byte 0x80817E 1 = 0x81.
Proof. split; vm_compute; reflexivity. Qed.

End FanProtocol.

(* ------------------------------------------------------------------ *)
(** ** Editing the curve *)

Section CurveEdit.
Import FanCurve NotebookControlApp.

Lemma gap_at_cons (p : point) (l : list point) (j : nat) :
  gap_at (p :: l) (S j) = gap_at l j.
Proof. reflexivity. Qed.

Lemma add_curve_point_loop_step (t1 s1 t2 s2 : Z) (tl : list point) :
  add_curve_point_loop ((t1, s1) :: (t2, s2) :: tl)
  = if t2 - t1 >? 5
    then (t1, s1) :: ((t1 + t2) / 2, (s1 + s2) / 2) :: (t2, s2) :: tl
    else (t1, s1) :: add_curve_point_loop ((t2, s2) :: tl).
Proof. reflexivity. Qed.

(** Without a gap above 5 degrees the loop changes nothing. *)
Lemma add_curve_point_loop_none (pts : list point) :
  (forall j h, gap_at pts j = Some h -> h <= 5) ->
  add_curve_point_loop pts = pts.
Proof.
  induction pts as [|[t1 s1] tl IH]; intros Hgaps; [reflexivity|].
  destruct tl as [|[t2 s2] tl']; [reflexivity|].
  rewrite add_curve_point_loop_step.
  pose proof (Hgaps 0%nat (t2 - t1) eq_refl) as H0.
  replace (t2 - t1 >? 5) with false
    by test_lia.
  f_equal. apply IH. intros j h Hj. apply (Hgaps (S j) h).
  rewrite gap_at_cons. exact Hj.
Qed.

(** The loop bisects the first gap above 5 degrees. *)
Lemma add_curve_point_loop_first (i : nat) :
  forall pts g,
    gap_at pts i = Some g -> g > 5 -> no_gap_before pts i ->
    bisected_at pts i (add_curve_point_loop pts).
Proof.
  induction i as [|i IH]; intros pts g Hgap Hg Hbefore.
  - destruct pts as [|[t1 s1] [|[t2 s2] tl]]; try discriminate.
    cbn in Hgap. injection Hgap as <-.
    rewrite add_curve_point_loop_step.
    replace (t2 - t1 >? 5) with true by test_lia.
    exists t1, s1, t2, s2. repeat split.
  - destruct pts as [|[t1 s1] [|[t2 s2] tl]];
      [discriminate | destruct i; discriminate |].
    pose proof (Hbefore 0%nat (t2 - t1) ltac:(lia) eq_refl) as H0.
    rewrite add_curve_point_loop_step.
    replace (t2 - t1 >? 5) with false
      by test_lia.
    rewrite gap_at_cons in Hgap.
    destruct (IH ((t2, s2) :: tl) g Hgap Hg) as (a & sa & b & sb & Ha & Hb & Heq).
    { intros j h Hj Hgj. apply (Hbefore (S j) h); [lia|].
      rewrite gap_at_cons. exact Hgj. }
    exists a, sa, b, sb. split; [exact Ha|]. split; [exact Hb|].
    rewrite Heq. reflexivity.
Qed.

Lemma add_curve_point_loop_length (pts : list point) :
  (length pts <= length (add_curve_point_loop pts) <= S (length pts))%nat.
Proof.
  induction pts as [|[t1 s1] tl IH]; [simpl; lia|].
  destruct tl as [|[t2 s2] tl']; [simpl; lia|].
  rewrite add_curve_point_loop_step. destruct (t2 - t1 >? 5).
  - simpl. lia.
  - change (length ((t1, s1) :: add_curve_point_loop ((t2, s2) :: tl')))
      with (S (length (add_curve_point_loop ((t2, s2) :: tl')))).
    change (length ((t1, s1) :: (t2, s2) :: tl'))
      with (S (length ((t2, s2) :: tl'))).
    lia.
Qed.

(** C4, as amended.  [add_curve_point] leaves a curve of 15 or more points
    unchanged, and a curve without a gap above 5 degrees unchanged.
    Otherwise it bisects the first gap above 5 degrees, counting from the
    coldest point (not the widest one): between the two points of that gap
    it inserts [((t1 + t2) // 2, (s1 + s2) // 2)]. *)
Theorem add_curve_point_first_gap (pts : list point) :
  ((15 <= length pts)%nat -> add_curve_point pts = pts) /\
  ((forall j h, gap_at pts j = Some h -> h <= 5) -> add_curve_point pts = pts) /\
  (forall i g,
      (length pts < 15)%nat ->
      gap_at pts i = Some g -> g > 5 -> no_gap_before pts i ->
      bisected_at pts i (add_curve_point pts)).
Proof.
  unfold add_curve_point. repeat split.
  - intros Hlen.
    replace (Z.of_nat (length pts) >=? 15) with true
      by test_lia.
    reflexivity.
  - intros Hgaps. destruct (Z.of_nat (length pts) >=? 15); [reflexivity|].
    apply add_curve_point_loop_none. exact Hgaps.
  - intros i g Hlen Hgap Hg Hbefore.
    replace (Z.of_nat (length pts) >=? 15) with false
      by test_lia.
    apply (add_curve_point_loop_first i pts g); assumption.
Qed.

Lemma add_curve_point_first_gap_witness :
  add_curve_point (repeat (50, 50) 15) = repeat (50, 50) 15 /\
  add_curve_point [(30, 0); (34, 10); (38, 20)] = [(30, 0); (34, 10); (38, 20)] /\
  bisected_at [(30, 0); (34, 10); (90, 100)] 1
              (add_curve_point [(30, 0); (34, 10); (90, 100)]).
Proof.
  split; [|split].
  - apply (proj1 (add_curve_point_first_gap (repeat (50, 50) 15))).
    simpl. lia.
  - apply (proj1 (proj2 (add_curve_point_first_gap [(30, 0); (34, 10); (38, 20)]))).
    intros j h Hj.
    do 3 (try destruct j as [|j]); cbn in Hj; try discriminate;
      try (injection Hj as <-; lia).
    destruct j; discriminate.
  - apply (proj2 (proj2 (add_curve_point_first_gap [(30, 0); (34, 10); (90, 100)]))
             1%nat 56).
    + simpl. lia.
    + reflexivity.
    + lia.
    + intros [|j] h Hj Hg; [|lia]. cbn in Hg. injection Hg as <-. lia.
Defined.

(** C4 as the contract words it fails.  On (30, 0), (40, 20), (90, 100)
    the widest gap is the one of 50 degrees from 40 to 90, but the point
    inserted is (35, 10), in the gap of 10 degrees from 30 to 40. *)
Lemma add_curve_point_widest_counterexample :
  let pts := [(30, 0); (40, 20); (90, 100)] in
  (length pts < 15)%nat /\
  gap_at pts 1 = Some 50 /\
  add_curve_point pts = [(30, 0); (35, 10); (40, 20); (90, 100)] /\
  ~ bisects_widest_gap pts (add_curve_point pts).
Proof.
  split; [simpl; lia|]. split; [reflexivity|]. split; [reflexivity|].
  intros (i & g & Hgap & Hg & Hmax & (t1 & s1 & t2 & s2 & H1 & H2 & Heq)).
  destruct i as [|[|i]].
  - cbn in Hgap. injection Hgap as <-.
    pose proof (Hmax 1%nat 50 eq_refl). lia.
  - cbn in H1, H2. injection H1 as <- <-. injection H2 as <- <-.
    vm_compute in Heq. discriminate.
  - cbn in H2. destruct i as [|i]; [discriminate|].
    destruct i; discriminate.
Qed.

Lemma delitem_length (l : list point) (i : Z) (l' : list point) :
  PySeq.delitem l i = Ret l' -> S (length l') = length l.
Proof.
  unfold PySeq.delitem.
  set (j := if i <? 0 then i + Z.of_nat (length l) else i).
  destruct ((0 <=? j) && (j <? Z.of_nat (length l))) eqn:E; [|discriminate].
  apply andb_true_iff in E. destruct E as [E1 E2].
  apply Z.leb_le in E1. apply Z.ltb_lt in E2.
  intros H.
  replace l' with (firstn (Z.to_nat j) l ++ skipn (S (Z.to_nat j)) l)
    by congruence.
  rewrite length_app, length_firstn, length_skipn. lia.
Qed.

(** C7.  On a curve of 2 to 15 points, [add_curve_point] and
    [remove_curve_point] both leave a curve of 2 to 15 points: with 15
    points the insertion changes nothing, and with 2 points the removal
    changes nothing, whatever row is selected. *)
Theorem curve_point_count (pts : list point) (sel : option Z) :
  (2 <= length pts <= 15)%nat ->
  (2 <= length (add_curve_point pts) <= 15)%nat /\
  (2 <= length (snd (remove_curve_point sel pts)) <= 15)%nat /\
  (length pts = 15%nat -> add_curve_point pts = pts) /\
  (length pts = 2%nat -> remove_curve_point sel pts = (Ret tt, pts)).
Proof.
  intros Hlen. repeat split.
  - unfold add_curve_point. destruct (Z.of_nat (length pts) >=? 15); [lia|].
    pose proof (add_curve_point_loop_length pts). lia.
  - unfold add_curve_point.
    destruct (Z.of_nat (length pts) >=? 15) eqn:E; [lia|].
    rewrite Z.geb_leb in E. apply Z.leb_gt in E.
    pose proof (add_curve_point_loop_length pts). lia.
  - unfold remove_curve_point.
    destruct (Z.of_nat (length pts) <=? 2) eqn:E; [simpl; lia|].
    apply Z.leb_gt in E.
    destruct sel as [idx|]; [|simpl; lia].
    destruct (PySeq.delitem pts idx) as [pts'|e] eqn:D; [|simpl; lia].
    apply delitem_length in D. simpl. lia.
  - unfold remove_curve_point.
    destruct (Z.of_nat (length pts) <=? 2); [simpl; lia|].
    destruct sel as [idx|]; [|simpl; lia].
    destruct (PySeq.delitem pts idx) as [pts'|e] eqn:D; [|simpl; lia].
    apply delitem_length in D. simpl. lia.
  - intros H15. unfold add_curve_point.
    replace (Z.of_nat (length pts) >=? 15) with true
      by test_lia.
    reflexivity.
  - intros H2. unfold remove_curve_point.
    replace (Z.of_nat (length pts) <=? 2) with true
      by test_lia.
    reflexivity.
Qed.

Lemma curve_point_count_witness :
  let pts := [(30, 0); (90, 100)] in
  (2 <= length (add_curve_point pts) <= 15)%nat /\
  (2 <= length (snd (remove_curve_point (Some 0%Z) pts)) <= 15)%nat /\
  (length pts = 15%nat -> add_curve_point pts = pts) /\
  (length pts = 2%nat -> remove_curve_point (Some 0) pts = (Ret tt, pts)).
Proof.
  apply (curve_point_count [(30, 0); (90, 100)] (Some 0)). simpl. lia.
Defined.

End CurveEdit.

(* ------------------------------------------------------------------ *)
(** ** KeyboardBacklightController *)

Section Backlight.
Import KeyboardBacklightController.

Lemma attr_name_eqb_eq (a b : attr_name) : attr_name_eqb a b = true <-> a = b.
Proof. destruct a, b; simpl; split; congruence. Qed.

(** The loop of [set_brightness] is [write_each] on the brightness files. *)
Lemma set_brightness_loop_write_each (b : Z) (paths : list path) :
  forall fs, set_brightness_loop b paths fs = write_each brightness [b] paths fs.
Proof.
  induction paths as [|p rest IH]; intros fs; [reflexivity|].
  cbn [set_brightness_loop write_each].
  destruct ((if exists_ fs p brightness
             then write_attr p brightness [b] else Eff.ret tt) fs)
    as [[u|e] fs']; [apply IH | reflexivity].
Qed.

Lemma getitem_of_nat (l : list path) (k : nat) (p : path) :
  nth_error l k = Some p -> PySeq.getitem l (Z.of_nat k) = Ret p.
Proof.
  intros H. unfold PySeq.getitem.
  assert (Hk : (k < length l)%nat) by (apply nth_error_Some; congruence).
  replace (Z.of_nat k <? 0) with false by test_lia.
  replace ((0 <=? Z.of_nat k) && (Z.of_nat k <? Z.of_nat (length l))) with true.
  - rewrite Nat2Z.id, H. reflexivity.
  - symmetry. apply andb_true_iff. split; [apply Z.leb_le | apply Z.ltb_lt]; lia.
Qed.

Lemma skipn_nth_error (l : list path) :
  forall k, (k < length l)%nat ->
            exists p, nth_error l k = Some p /\ skipn k l = p :: skipn (S k) l.
Proof.
  induction l as [|a l IH]; intros k Hk; [simpl in Hk; lia|].
  destruct k as [|k].
  - exists a. split; reflexivity.
  - destruct (IH k) as (p & Hp & Hs); [simpl in Hk; lia|].
    exists p. split; [exact Hp | exact Hs].
Qed.

(** Over the zones [k, k + 1, ...] up to the last one, the loop of
    [set_color] is [write_each] on the multi_intensity files of the
    directories from position [k] on. *)
Lemma set_color_loop_write_each (self : t) (r g b : Z) (m : nat) :
  forall k fs,
    (k + m = length (kbd_backlight_paths self))%nat ->
    set_color_loop self r g b (map Z.of_nat (seq k m)) fs
    = write_each multi_intensity [r; g; b] (skipn k (kbd_backlight_paths self)) fs.
Proof.
  induction m as [|m IH]; intros k fs Hkm.
  - rewrite skipn_all2 by lia. reflexivity.
  - destruct (skipn_nth_error (kbd_backlight_paths self) k ltac:(lia))
      as (p & Hp & Hs).
    rewrite Hs. cbn [seq map set_color_loop write_each].
    replace (Z.of_nat k >=? Z.of_nat (length (kbd_backlight_paths self)))
      with false by test_lia.
    unfold Eff.bind, Eff.lift. rewrite (getitem_of_nat _ _ _ Hp).
    destruct ((if exists_ fs p multi_intensity
               then write_attr p multi_intensity [r; g; b] else Eff.ret tt) fs)
      as [[u|e] fs']; [|reflexivity].
    apply IH. lia.
Qed.

(** One step of [write_each] where the file is writable or absent: the
    files afterwards are those of [file_after] for that one directory. *)
Lemma write_step_ok (a : attr_name) (v : list Z) (p : path) (fs : sysfs) :
  writable_or_absent fs a p = true ->
  exists fs1,
    (if exists_ fs p a then write_attr p a v else Eff.ret tt) fs = (Ret tt, fs1) /\
    attempts fs1 = attempts fs ++ attempts_of a v [p] fs /\
    (forall q a', file fs1 q a' = file_after a v [p] fs q a').
Proof.
  unfold writable_or_absent, exists_, attempts_of, write_attr. cbn [filter map].
  unfold exists_.
  destruct (file fs p a) as [f|] eqn:Hf; intros Hw.
  - rewrite Hf, Hw. eexists. split; [reflexivity|]. cbn [file attempts].
    split; [reflexivity|].
    intros q a'. unfold store, file_after. cbn [existsb]. rewrite orb_false_r.
    rewrite (andb_comm (String.eqb q p)).
    destruct (attr_name_eqb a' a && String.eqb q p) eqn:E.
    + apply andb_true_iff in E. destruct E as [E1 E2].
      apply String.eqb_eq in E2. apply attr_name_eqb_eq in E1. subst.
      rewrite Hf, Hw. reflexivity.
    + destruct (file fs q a'); reflexivity.
  - exists fs. unfold Eff.ret. split; [reflexivity|].
    split; [rewrite app_nil_r; reflexivity|].
    intros q a'. unfold file_after. cbn [existsb]. rewrite orb_false_r.
    destruct (file fs q a') as [f|] eqn:Hq; [|reflexivity].
    destruct (attr_name_eqb a' a && String.eqb q p) eqn:E; [|reflexivity].
    apply andb_true_iff in E. destruct E as [E1 E2].
    apply String.eqb_eq in E2. apply attr_name_eqb_eq in E1. subst.
    congruence.
Qed.

(** One step of [write_each] where the write raises: the loop returns
    [False] with the attempt logged and no file changed. *)
Lemma write_each_fail (a : attr_name) (v : list Z) (p : path)
      (post : list path) (fs : sysfs) :
  write_fails fs a p = true ->
  write_each a v (p :: post) fs
  = (Ret false, {| file := file fs; attempts := attempts fs ++ [(p, a, v)] |}).
Proof.
  unfold write_fails. cbn [write_each]. unfold exists_, write_attr.
  destruct (file fs p a) as [f|] eqn:Hf; [|discriminate].
  intros Hw. apply negb_true_iff in Hw. rewrite Hf, Hw. reflexivity.
Qed.

(** Writes keep every file in place, with its permissions. *)
Lemma file_after_shape (a : attr_name) (v : list Z) (done : list path)
      (fs fs1 : sysfs) :
  (forall q a', file fs1 q a' = file_after a v done fs q a') ->
  forall q a',
    exists_ fs1 q a' = exists_ fs q a' /\
    writable_or_absent fs1 a' q = writable_or_absent fs a' q /\
    write_fails fs1 a' q = write_fails fs a' q /\
    option_map can_read (file fs1 q a') = option_map can_read (file fs q a').
Proof.
  intros H q a'. unfold exists_, writable_or_absent, write_fails.
  rewrite H. unfold file_after.
  destruct (file fs q a') as [f|]; [|repeat split].
  destruct (attr_name_eqb a' a && existsb (String.eqb q) done); repeat split.
Qed.

Lemma file_after_compose (a : attr_name) (v : list Z) (p : path)
      (done : list path) (fs fs1 fs2 : sysfs) :
  (forall q a', file fs1 q a' = file_after a v [p] fs q a') ->
  (forall q a', file fs2 q a' = file_after a v done fs1 q a') ->
  forall q a', file fs2 q a' = file_after a v (p :: done) fs q a'.
Proof.
  intros H1 H2 q a'. rewrite H2. unfold file_after at 1. rewrite H1.
  unfold file_after. cbn [existsb].
  destruct (file fs q a') as [f|]; [|reflexivity].
  destruct (attr_name_eqb a' a), (String.eqb q p),
    (existsb (String.eqb q) done); reflexivity.
Qed.

Lemma attempts_of_shape (a : attr_name) (v : list Z) (done : list path)
      (fs fs1 : sysfs) :
  (forall q, exists_ fs1 q a = exists_ fs q a) ->
  attempts_of a v done fs1 = attempts_of a v done fs.
Proof.
  intros H. unfold attempts_of. f_equal.
  apply filter_ext. intros q. apply H.
Qed.

(** While every file met is writable or absent, [write_each] runs on:
    after the directories [pre] it continues with [rest], one attempt
    logged per file there, each of those files holding [v]. *)
Lemma write_each_prefix (a : attr_name) (v : list Z) (pre : list path) :
  forall rest fs,
    (forall q, In q pre -> writable_or_absent fs a q = true) ->
    exists fs1,
      write_each a v (pre ++ rest) fs = write_each a v rest fs1 /\
      attempts fs1 = attempts fs ++ attempts_of a v pre fs /\
      (forall q a', file fs1 q a' = file_after a v pre fs q a').
Proof.
  induction pre as [|p pre IH]; intros rest fs Hok.
  - exists fs. split; [reflexivity|]. split.
    + unfold attempts_of. simpl. rewrite app_nil_r. reflexivity.
    + intros q a'. unfold file_after. cbn [existsb]. rewrite andb_false_r.
      destruct (file fs q a'); reflexivity.
  - destruct (write_step_ok a v p fs (Hok p (or_introl eq_refl)))
      as (fs1 & Hstep & Hlog1 & Hfile1).
    pose proof (file_after_shape a v [p] fs fs1 Hfile1) as Hshape.
    destruct (IH rest fs1) as (fs2 & Hrun & Hlog2 & Hfile2).
    { intros q Hq. destruct (Hshape q a) as (_ & -> & _).
      apply Hok. right. exact Hq. }
    exists fs2. split; [|split].
    + cbn [app write_each]. rewrite Hstep. exact Hrun.
    + rewrite Hlog2, Hlog1, <- app_assoc. f_equal.
      rewrite (attempts_of_shape a v pre fs fs1)
        by (intros q; apply (Hshape q a)).
      unfold attempts_of. rewrite <- map_app. f_equal.
      cbn [filter]. destruct (exists_ fs p a); reflexivity.
    + exact (file_after_compose a v p pre fs fs1 fs2 Hfile1 Hfile2).
Qed.

Lemma set_brightness_write_each (self : t) (b : Z) (fs : sysfs) :
  kbd_backlight_paths self <> [] ->
  set_brightness self b fs
  = write_each brightness [Z.max 0 (Z.min b (max_brightness self))]
               (kbd_backlight_paths self) fs.
Proof.
  intros Hne. unfold set_brightness.
  destruct (kbd_backlight_paths self) as [|p0 rest]; [congruence|].
  apply set_brightness_loop_write_each.
Qed.

Lemma set_color_all_write_each (self : t) (r g b : Z) (fs : sysfs) :
  has_rgb self = true ->
  set_color self r g b None fs
  = write_each multi_intensity
               [Z.max 0 (Z.min 255 r); Z.max 0 (Z.min 255 g); Z.max 0 (Z.min 255 b)]
               (kbd_backlight_paths self) fs.
Proof.
  intros Hrgb. unfold set_color. rewrite Hrgb. cbn [negb]. unfold range.
  apply (set_color_loop_write_each self _ _ _ _ 0%nat). reflexivity.
Qed.

(** [write_each] up to and including its first failing write. *)
Lemma write_each_first_failure (a : attr_name) (v : list Z)
      (pre post : list path) (p : path) (fs : sysfs) :
  (forall q, In q pre -> writable_or_absent fs a q = true) ->
  write_fails fs a p = true ->
  exists fs',
    write_each a v (pre ++ p :: post) fs = (Ret false, fs') /\
    attempts fs' = attempts fs ++ attempts_of a v pre fs ++ [(p, a, v)] /\
    (forall q a', file fs' q a' = file_after a v pre fs q a').
Proof.
  intros Hpre Hfail.
  destruct (write_each_prefix a v pre (p :: post) fs Hpre)
    as (fs1 & Hrun & Hlog & Hfile).
  destruct (file_after_shape a v pre fs fs1 Hfile p a) as (_ & _ & Hf & _).
  rewrite <- Hf in Hfail.
  eexists. split; [|split].
  - rewrite Hrun. apply write_each_fail. exact Hfail.
  - cbn [attempts]. rewrite Hlog, <- app_assoc. reflexivity.
  - exact Hfile.
Qed.

(** C5, as amended.  When the write to one zone raises, [set_brightness]
    and [set_color] (on all zones) return [False] at once: the zones before
    it that have the attribute were each written once and keep the new
    value, the failing write is the last attempt, and no later zone is
    attempted or changed. *)
Theorem zone_write_failure (self : t) (pre post : list path) (p : path)
        (fs : sysfs) (b r g bl : Z) :
  kbd_backlight_paths self = pre ++ p :: post ->
  ((forall q, In q pre -> writable_or_absent fs brightness q = true) ->
   write_fails fs brightness p = true ->
   let v := [Z.max 0 (Z.min b (max_brightness self))] in
   exists fs',
     set_brightness self b fs = (Ret false, fs') /\
     attempts fs' = attempts fs ++ attempts_of brightness v pre fs
                                ++ [(p, brightness, v)] /\
     (forall q a, file fs' q a = file_after brightness v pre fs q a)) /\
  (has_rgb self = true ->
   (forall q, In q pre -> writable_or_absent fs multi_intensity q = true) ->
   write_fails fs multi_intensity p = true ->
   let v := [Z.max 0 (Z.min 255 r); Z.max 0 (Z.min 255 g);
             Z.max 0 (Z.min 255 bl)] in
   exists fs',
     set_color self r g bl None fs = (Ret false, fs') /\
     attempts fs' = attempts fs ++ attempts_of multi_intensity v pre fs
                                ++ [(p, multi_intensity, v)] /\
     (forall q a, file fs' q a = file_after multi_intensity v pre fs q a)).
Proof.
  intros Hpaths. split.
  - intros Hpre Hfail v.
    rewrite set_brightness_write_each
      by (rewrite Hpaths; destruct pre; discriminate).
    rewrite Hpaths. apply write_each_first_failure; assumption.
  - intros Hrgb Hpre Hfail v.
    rewrite set_color_all_write_each by exact Hrgb.
    rewrite Hpaths. apply write_each_first_failure; assumption.
Qed.

Lemma zone_write_failure_witness :
  let self := sample_kbd in
  let fs := sample_fs LedPaths.zone1 in
  (exists fs',
      set_brightness self 300 fs = (Ret false, fs') /\
      attempts fs' = attempts fs
                       ++ attempts_of brightness [255] [LedPaths.zone0] fs
                       ++ [(LedPaths.zone1, brightness, [255])] /\
      (forall q a, file fs' q a
                   = file_after brightness [255] [LedPaths.zone0] fs q a)) /\
  (exists fs',
      set_color self 0 300 (-5) None fs = (Ret false, fs') /\
      attempts fs' = attempts fs
                       ++ attempts_of multi_intensity [0; 255; 0] [LedPaths.zone0] fs
                       ++ [(LedPaths.zone1, multi_intensity, [0; 255; 0])] /\
      (forall q a, file fs' q a
                   = file_after multi_intensity [0; 255; 0] [LedPaths.zone0] fs q a)).
Proof.
  intros self fs.
  destruct (zone_write_failure self [LedPaths.zone0] [LedPaths.zone2]
              LedPaths.zone1 fs 300 0 300 (-5) eq_refl) as [Hb Hc].
  split.
  - apply Hb; [|reflexivity].
    intros q [<- | []]. reflexivity.
  - apply Hc; [reflexivity | | reflexivity].
    intros q [<- | []]. reflexivity.
Defined.

(** C5 as the contract words it fails on the remaining zones.  With the
    files of the first zone read-only and those of the other two writable,
    [set_brightness] and [set_color] return [False] after the one attempt
    on the first zone: the second zone is not attempted and keeps its
    brightness and colour. *)
Lemma zone_write_attempts_counterexample :
  let self := sample_kbd in
  let fs := sample_fs LedPaths.zone0 in
  let out_b := set_brightness self 200 fs in
  let out_c := set_color self 0 0 255 None fs in
  writable_or_absent fs brightness LedPaths.zone1 = true /\
  writable_or_absent fs multi_intensity LedPaths.zone1 = true /\
  fst out_b = Ret false /\
  attempts (snd out_b) = [(LedPaths.zone0, brightness, [200])] /\
  content_of (snd out_b) LedPaths.zone1 brightness = Some [120] /\
  ~ all_zones_attempted self brightness fs (snd out_b) /\
  fst out_c = Ret false /\
  attempts (snd out_c) = [(LedPaths.zone0, multi_intensity, [0; 0; 255])] /\
  content_of (snd out_c) LedPaths.zone1 multi_intensity = Some [255; 0; 0] /\
  ~ all_zones_attempted self multi_intensity fs (snd out_c).
Proof.
  intros self fs out_b out_c.
  assert (Hb : attempts (snd out_b) = [(LedPaths.zone0, brightness, [200])])
    by (vm_compute; reflexivity).
  assert (Hc : attempts (snd out_c) = [(LedPaths.zone0, multi_intensity, [0; 0; 255])])
    by (vm_compute; reflexivity).
  repeat split; try (vm_compute; reflexivity); try assumption.
  - intros Hall.
    destruct (Hall LedPaths.zone1) as [v Hin];
      [right; left; reflexivity | reflexivity |].
    rewrite Hb in Hin. destruct Hin as [E | []]. discriminate E.
  - intros Hall.
    destruct (Hall LedPaths.zone1) as [v Hin];
      [right; left; reflexivity | reflexivity |].
    rewrite Hc in Hin. destruct Hin as [E | []]. discriminate E.
Qed.

Lemma write_fails_not_writable (fs : sysfs) (a : attr_name) (p : path) :
  writable_or_absent fs a p = false -> write_fails fs a p = true.
Proof.
  unfold writable_or_absent, write_fails.
  destruct (file fs p a); [intros ->; reflexivity | discriminate].
Qed.

Lemma attempts_of_carries (a : attr_name) (v : list Z) (done : list path)
      (fs : sysfs) :
  Forall (carries a v) (attempts_of a v done fs).
Proof.
  unfold attempts_of. apply Forall_forall. intros e He.
  apply in_map_iff in He. destruct He as (q & <- & _). split; reflexivity.
Qed.

(** Whatever the permissions: [write_each] returns a boolean, stores [v]
    in the files of some directories [done] and changes nothing else,
    every attempt it logs carries [v], and the first directory is
    attempted first when it has the attribute. *)
Lemma write_each_total (a : attr_name) (v : list Z) (paths : list path) :
  forall fs,
  exists ok done fs' extra,
    write_each a v paths fs = (Ret ok, fs') /\
    (forall q a', file fs' q a' = file_after a v done fs q a') /\
    attempts fs' = attempts fs ++ extra /\
    Forall (carries a v) extra /\
    (forall p0 rest, paths = p0 :: rest -> exists_ fs p0 a = true ->
                     exists extra', extra = (p0, a, v) :: extra').
Proof.
  induction paths as [|p rest IH]; intros fs.
  - exists true, [], fs, []. split; [reflexivity|]. split; [|split; [|split]].
    + intros q a'. unfold file_after. cbn [existsb]. rewrite andb_false_r.
      destruct (file fs q a'); reflexivity.
    + rewrite app_nil_r. reflexivity.
    + constructor.
    + intros p0 rest0 H. discriminate H.
  - destruct (writable_or_absent fs a p) eqn:Hw.
    + destruct (write_step_ok a v p fs Hw) as (fs1 & Hstep & Hlog1 & Hfile1).
      destruct (IH fs1) as (ok & done & fs2 & extra & Hrun & Hfile2 & Hlog2 & Hall & _).
      exists ok, (p :: done), fs2, (attempts_of a v [p] fs ++ extra).
      split; [|split; [|split; [|split]]].
      * cbn [write_each]. rewrite Hstep. exact Hrun.
      * exact (file_after_compose a v p done fs fs1 fs2 Hfile1 Hfile2).
      * rewrite Hlog2, Hlog1, <- app_assoc. reflexivity.
      * apply Forall_app. split; [apply attempts_of_carries | exact Hall].
      * intros p0 rest0 Heq Hex. injection Heq as <- <-.
        unfold attempts_of. cbn [filter]. rewrite Hex. cbn [map app].
        eexists. reflexivity.
    + apply write_fails_not_writable in Hw.
      exists false, [], {| file := file fs; attempts := attempts fs ++ [(p, a, v)] |},
        [(p, a, v)].
      split; [|split; [|split; [|split]]].
      * apply write_each_fail. exact Hw.
      * intros q a'. cbn [file]. unfold file_after. cbn [existsb].
        rewrite andb_false_r. destruct (file fs q a'); reflexivity.
      * reflexivity.
      * repeat constructor.
      * intros p0 rest0 Heq _. injection Heq as <- <-. exists []. reflexivity.
Qed.


Lemma read_attr_exists (fs : sysfs) (q : path) (a : attr_name) (c : list Z) :
  read_attr fs q a = Ret c -> exists_ fs q a = true.
Proof.
  unfold read_attr, exists_. destruct (file fs q a); [reflexivity | discriminate].
Qed.

Lemma get_brightness_read (self : t) (fs : sysfs) (p0 : path)
      (rest : list path) (b0 : Z) :
  kbd_backlight_paths self = p0 :: rest ->
  read_attr fs p0 brightness = Ret [b0] ->
  get_brightness self fs = b0.
Proof.
  intros Hp Hr. unfold get_brightness. rewrite Hp.
  rewrite (read_attr_exists _ _ _ _ Hr), Hr. reflexivity.
Qed.




(** The writes of a restore on the three-zone keyboard. *)
Example restore_state_attempts :
  attempts (snd (restore_state (save_state sample_kbd (sample_fs String.EmptyString))
                               (sample_fs String.EmptyString)))
  = [(LedPaths.zone0, brightness, [120]); (LedPaths.zone1, brightness, [120]);
     (LedPaths.zone2, brightness, [120]);
     (LedPaths.zone0, multi_intensity, [255; 0; 0]);
     (LedPaths.zone1, multi_intensity, [255; 0; 0]);
     (LedPaths.zone2, multi_intensity, [255; 0; 0])].
Proof. vm_compute. reflexivity. Qed.

End Backlight.

(* ------------------------------------------------------------------ *)
(** ** FanCurve objects *)

Section CurveObjects.
Import FanCurve FanCurveObject NotebookControlApp.

Lemma insert_by_temp_perm (p : point) (l : list point) :
  Permutation (p :: l) (insert_by_temp p l).
Proof.
  induction l as [|q tl IH]; [apply Permutation_refl|].
  cbn [insert_by_temp]. destruct (fst q <? fst p); [|apply Permutation_refl].
  apply perm_trans with (q :: p :: tl); [apply perm_swap|].
  apply perm_skip. exact IH.
Qed.

Lemma sort_by_temp_cons (p : point) (l : list point) :
  sort_by_temp (p :: l) = insert_by_temp p (sort_by_temp l).
Proof. reflexivity. Qed.

Lemma sort_by_temp_perm (l : list point) : Permutation l (sort_by_temp l).
Proof.
  induction l as [|p tl IH]; [apply perm_nil|].
  rewrite sort_by_temp_cons.
  apply perm_trans with (p :: sort_by_temp tl); [apply perm_skip; exact IH|].
  apply insert_by_temp_perm.
Qed.

Lemma nondecreasing_tail (p : point) (l : list point) :
  nondecreasing (p :: l) -> nondecreasing l.
Proof. destruct l; simpl; [trivial | intros [_ H]; exact H]. Qed.

Lemma nondecreasing_cons (p q : point) (l : list point) :
  fst p <= fst q -> nondecreasing (q :: l) -> nondecreasing (p :: q :: l).
Proof. intros H1 H2. split; assumption. Qed.

Lemma insert_by_temp_nondecreasing (p : point) (l : list point) :
  nondecreasing l -> nondecreasing (insert_by_temp p l).
Proof.
  induction l as [|q tl IH]; intros Hl; [exact I|].
  cbn [insert_by_temp]. destruct (Z.ltb_spec (fst q) (fst p)) as [Hlt | Hge].
  - specialize (IH (nondecreasing_tail _ _ Hl)).
    destruct tl as [|r tl'].
    + cbn [insert_by_temp]. apply nondecreasing_cons; [lia | exact I].
    + cbn [insert_by_temp] in *. destruct Hl as [Hqr _].
      destruct (fst r <? fst p); apply nondecreasing_cons; try assumption; lia.
  - apply nondecreasing_cons; [lia | exact Hl].
Qed.

Lemma sort_by_temp_nondecreasing (l : list point) :
  nondecreasing (sort_by_temp l).
Proof.
  induction l as [|p tl IH]; [exact I|].
  rewrite sort_by_temp_cons. apply insert_by_temp_nondecreasing. exact IH.
Qed.

(** Insertion keeps the points of each temperature in their order, the
    new point in front. *)
Lemma insert_by_temp_at_temp (t : Z) (p : point) (l : list point) :
  at_temp t (insert_by_temp p l) = at_temp t (p :: l).
Proof.
  unfold at_temp. induction l as [|q tl IH]; [reflexivity|].
  cbn [insert_by_temp]. destruct (Z.ltb_spec (fst q) (fst p)) as [Hlt | Hge];
    [|reflexivity].
  cbn [filter] in *. rewrite IH.
  destruct (Z.eqb_spec (fst q) t), (Z.eqb_spec (fst p) t); try reflexivity.
  lia.
Qed.

Lemma sort_by_temp_at_temp (t : Z) (l : list point) :
  at_temp t (sort_by_temp l) = at_temp t l.
Proof.
  induction l as [|p tl IH]; [reflexivity|].
  rewrite sort_by_temp_cons, insert_by_temp_at_temp.
  unfold at_temp in *. cbn [filter]. rewrite IH. reflexivity.
Qed.

(** Sorting a list that is in order changes nothing. *)
Lemma sort_by_temp_sorted (l : list point) :
  nondecreasing l -> sort_by_temp l = l.
Proof.
  induction l as [|p tl IH]; intros Hl; [reflexivity|].
  rewrite sort_by_temp_cons, (IH (nondecreasing_tail _ _ Hl)).
  destruct tl as [|q tl']; [reflexivity|].
  cbn [insert_by_temp]. destruct Hl as [Hpq _].
  replace (fst q <? fst p) with false by test_lia. reflexivity.
Qed.

Lemma ascending_nondecreasing (l : list point) :
  ascending l -> nondecreasing l.
Proof.
  induction l as [|p tl IH]; [trivial|].
  destruct tl as [|q tl']; [trivial|].
  intros [Hpq Hrest]. split; [lia | apply IH; exact Hrest].
Qed.

(** X1.  A curve built by [FanCurve(points)] is in ascending order of
    temperature, holds exactly the points given (those of the built-in
    curve when none are given, or an empty list), and keeps points of
    equal temperature in the order they were given. *)
Theorem init_sorted (points : option (list point)) :
  let given := match points with
               | Some (p :: l) => p :: l
               | _ => DEFAULT
               end in
  nondecreasing (init points) /\
  Permutation given (init points) /\
  (forall t, at_temp t (init points) = at_temp t given).
Proof.
  intros given. unfold init. fold given. split; [|split].
  - apply sort_by_temp_nondecreasing.
  - apply sort_by_temp_perm.
  - intros t. apply sort_by_temp_at_temp.
Qed.

(** X2.  [copy] of a curve whose points are in ascending order has the
    same points in the same order; a curve without points copies to the
    built-in curve. *)
Theorem copy_same (pts : list point) :
  nondecreasing pts ->
  (pts <> [] -> copy pts = pts) /\ copy [] = DEFAULT.
Proof.
  intros Hs. split; [|reflexivity].
  intros Hne. unfold copy, init.
  destruct pts as [|p l]; [congruence|].
  apply sort_by_temp_sorted. exact Hs.
Qed.

Lemma copy_same_witness :
  (DEFAULT <> [] -> copy DEFAULT = DEFAULT) /\ copy [] = DEFAULT.
Proof.
  apply (copy_same DEFAULT). simpl. lia.
Defined.

Lemma setitem_length (l : list point) (i : Z) (x : point) (l' : list point) :
  FanCurveObject.setitem l i x = Ret l' -> length l' = length l.
Proof.
  unfold FanCurveObject.setitem.
  set (j := if i <? 0 then i + Z.of_nat (length l) else i).
  destruct ((0 <=? j) && (j <? Z.of_nat (length l))) eqn:E; [|discriminate].
  apply andb_true_iff in E. destruct E as [E1 E2].
  apply Z.leb_le in E1. apply Z.ltb_lt in E2.
  intros H.
  replace l' with (firstn (Z.to_nat j) l ++ x :: skipn (S (Z.to_nat j)) l)
    by congruence.
  rewrite length_app, length_firstn. cbn [length]. rewrite length_skipn. lia.
Qed.

(** X3.  Saving the edit dialog on a row of the curve replaces that point
    and sorts: the number of points is unchanged, the curve is in
    ascending order and holds the new point together with the other
    points.  On a row past the end it raises [IndexError] and leaves the
    curve as it was. *)
Theorem save_keeps_curve (pts : list point) (idx temp speed : Z) :
  (0 <= idx < Z.of_nat (length pts) ->
   exists pts',
     save idx temp speed pts = (Ret tt, pts') /\
     length pts' = length pts /\
     nondecreasing pts' /\
     Permutation (firstn (Z.to_nat idx) pts ++ (temp, speed)
                    :: skipn (S (Z.to_nat idx)) pts) pts') /\
  (Z.of_nat (length pts) <= idx ->
   save idx temp speed pts = (Exc IndexError, pts)).
Proof.
  split.
  - intros Hidx. unfold save.
    assert (Hset : FanCurveObject.setitem pts idx (temp, speed)
                   = Ret (firstn (Z.to_nat idx) pts ++ (temp, speed)
                            :: skipn (S (Z.to_nat idx)) pts)).
    { unfold FanCurveObject.setitem.
      replace (idx <? 0) with false by test_lia.
      replace ((0 <=? idx) && (idx <? Z.of_nat (length pts))) with true;
        [reflexivity|].
      symmetry. apply andb_true_iff. split; [apply Z.leb_le | apply Z.ltb_lt]; lia. }
    rewrite Hset. eexists. split; [reflexivity|]. split; [|split].
    + rewrite <- (Permutation_length (sort_by_temp_perm _)).
      exact (setitem_length _ _ _ _ Hset).
    + apply sort_by_temp_nondecreasing.
    + apply sort_by_temp_perm.
  - intros Hidx. unfold save, FanCurveObject.setitem.
    replace (idx <? 0) with false by test_lia.
    replace ((0 <=? idx) && (idx <? Z.of_nat (length pts))) with false;
      [reflexivity|].
    symmetry. apply andb_false_iff. right. apply Z.ltb_ge. lia.
Qed.

Lemma save_keeps_curve_witness :
  (exists pts',
      save 0 95 100 DEFAULT = (Ret tt, pts') /\
      length pts' = length DEFAULT /\
      nondecreasing pts' /\
      Permutation (firstn (Z.to_nat 0) DEFAULT ++ (95, 100)
                     :: skipn (S (Z.to_nat 0)) DEFAULT) pts') /\
  save 7 95 100 DEFAULT = (Exc IndexError, DEFAULT).
Proof.
  destruct (save_keeps_curve DEFAULT 0 95 100) as [H1 _].
  destruct (save_keeps_curve DEFAULT 7 95 100) as [_ H2].
  split; [apply H1 | apply H2]; simpl; lia.
Defined.

Lemma ascending_cons_intro (p : point) (l : list point) :
  (forall q, In q l -> fst p < fst q) -> ascending l -> ascending (p :: l).
Proof.
  destruct l as [|q tl]; [trivial|].
  intros Hp Hl. split; [apply Hp; left; reflexivity | exact Hl].
Qed.

(** The loop of [add_curve_point] keeps the curve in strict order and
    adds a point only between two points, within their temperatures and
    speeds. *)
Lemma add_curve_point_loop_order (P : point -> Prop) (pts : list point) :
  (forall t1 s1 t2 s2 t s,
      P (t1, s1) -> P (t2, s2) ->
      t1 <= t <= t2 -> Z.min s1 s2 <= s <= Z.max s1 s2 -> P (t, s)) ->
  ascending pts -> Forall P pts ->
  ascending (add_curve_point_loop pts) /\ Forall P (add_curve_point_loop pts) /\
  hd_error (add_curve_point_loop pts) = hd_error pts.
Proof.
  intros HP. induction pts as [|[t1 s1] tl IH]; intros Hasc Hall;
    [repeat split; constructor|].
  destruct tl as [|[t2 s2] tl']; [repeat split; assumption|].
  rewrite add_curve_point_loop_step.
  destruct Hasc as [H12 Hrest].
  inversion Hall as [|? ? HP1 Hall']; subst.
  inversion Hall' as [|? ? HP2 _]; subst.
  destruct (Z.gtb_spec (t2 - t1) 5) as [Hgap | Hgap].
  - assert (Hmid : t1 < (t1 + t2) / 2 < t2)
      by (Z.to_euclidean_division_equations; lia).
    assert (Hs : Z.min s1 s2 <= (s1 + s2) / 2 <= Z.max s1 s2)
      by (Z.to_euclidean_division_equations; lia).
    split; [|split; [|reflexivity]].
    + split; [apply Hmid|]. split; [apply Hmid | exact Hrest].
    + constructor; [exact HP1|]. constructor; [|exact Hall'].
      apply (HP t1 s1 t2 s2); try assumption. lia.
  - destruct (IH Hrest Hall') as (IHa & IHp & IHh).
    split; [|split; [|reflexivity]].
    + destruct (add_curve_point_loop ((t2, s2) :: tl')) as [|q l'] eqn:E;
        [exact I|].
      cbn [hd_error] in IHh. injection IHh as ->.
      split; [exact H12 | exact IHa].
    + constructor; assumption.
Qed.

(** X4.  [add_curve_point] keeps a strictly ascending curve strictly
    ascending, and keeps every temperature and every speed within the
    bounds that held for all points before. *)
Theorem add_curve_point_keeps_order (pts : list point) (tlo thi slo shi : Z) :
  ascending pts ->
  Forall (fun p => tlo <= fst p <= thi /\ slo <= snd p <= shi) pts ->
  ascending (add_curve_point pts) /\
  Forall (fun p => tlo <= fst p <= thi /\ slo <= snd p <= shi)
         (add_curve_point pts).
Proof.
  intros Hasc Hall. unfold add_curve_point.
  destruct (Z.of_nat (length pts) >=? 15); [split; assumption|].
  destruct (add_curve_point_loop_order
              (fun p => tlo <= fst p <= thi /\ slo <= snd p <= shi) pts)
    as (Ha & Hp & _); try assumption; [|split; assumption].
  intros t1 s1 t2 s2 t s H1 H2 Ht Hs. cbn [fst snd] in *. lia.
Qed.

Lemma add_curve_point_keeps_order_witness :
  ascending (add_curve_point DEFAULT) /\
  Forall (fun p => 20 <= fst p <= 95 /\ 0 <= snd p <= 100)
         (add_curve_point DEFAULT).
Proof.
  apply (add_curve_point_keeps_order DEFAULT 20 95 0 100).
  - simpl. lia.
  - repeat constructor; simpl; lia.
Defined.

Lemma in_delete (l : list point) :
  forall j q, In q (firstn j l ++ skipn (S j) l) -> In q l.
Proof.
  induction l as [|a l IH]; intros j q Hin.
  - rewrite firstn_nil, skipn_nil in Hin. exact Hin.
  - destruct j as [|j].
    + right. exact Hin.
    + cbn [firstn skipn app] in Hin. destruct Hin as [<- | Hin];
        [left; reflexivity | right; exact (IH j q Hin)].
Qed.

Lemma delete_ascending (l : list point) :
  forall j, ascending l -> ascending (firstn j l ++ skipn (S j) l).
Proof.
  induction l as [|a l IH]; intros j Hasc.
  - rewrite firstn_nil, skipn_nil. exact I.
  - destruct j as [|j].
    + exact (ascending_tail _ _ Hasc).
    + cbn [firstn skipn app]. apply ascending_cons_intro.
      * intros q Hq. apply (ascending_head_lt l a q Hasc).
        exact (in_delete l j q Hq).
      * apply IH. exact (ascending_tail _ _ Hasc).
Qed.

(** X5.  [remove_curve_point] keeps a strictly ascending curve strictly
    ascending, whatever row is selected and whether or not it raises. *)
Theorem remove_curve_point_keeps_order (pts : list point) (sel : option Z) :
  ascending pts -> ascending (snd (remove_curve_point sel pts)).
Proof.
  intros Hasc. unfold remove_curve_point.
  destruct (Z.of_nat (length pts) <=? 2); [exact Hasc|].
  destruct sel as [idx|]; [|exact Hasc].
  unfold PySeq.delitem.
  destruct ((0 <=? (if idx <? 0 then idx + Z.of_nat (length pts) else idx)) &&
            ((if idx <? 0 then idx + Z.of_nat (length pts) else idx)
               <? Z.of_nat (length pts))); [|exact Hasc].
  cbn [snd]. apply delete_ascending. exact Hasc.
Qed.

Lemma remove_curve_point_keeps_order_witness :
  ascending (snd (remove_curve_point (Some 3) DEFAULT)).
Proof.
  apply (remove_curve_point_keeps_order DEFAULT (Some 3)). simpl. lia.
Defined.

Lemma scan_step (t1 s1 t2 s2 : Z) (tl : list point) (temp dflt : Z) :
  scan ((t1, s1) :: (t2, s2) :: tl) temp dflt
  = if (t1 <=? temp) && (temp <=? t2)
    then interpolate t1 s1 t2 s2 temp
    else scan ((t2, s2) :: tl) temp dflt.
Proof. reflexivity. Qed.

(** With two different temperatures the interpolation can only fail on a
    float too large, or not a number. *)
Lemma interpolate_errors (t1 s1 t2 s2 temp : Z) (e : exn) :
  t2 - t1 <> 0 ->
  interpolate t1 s1 t2 s2 temp = Exc e -> e = OverflowError \/ e = ValueError.
Proof.
  intros Hne. apply Z.eqb_neq in Hne.
  unfold interpolate, res_bind, PyNum.int_truediv, PyNum.float_of_int,
    PyNum.int_of_float.
  rewrite Hne.
  repeat match goal with
         | |- context [PyNum.fdiv ?a ?b] => destruct (PyNum.fdiv a b)
         | |- context [binary_normalize ?a ?b ?c ?d ?f] =>
             destruct (binary_normalize a b c d f)
         | |- context [PyNum.fadd ?a ?b] => destruct (PyNum.fadd a b)
         end;
    intros H; try discriminate; injection H as <-; auto.
Qed.

(** The loop never divides by zero: it reaches a bracket only with the
    temperature above the bracket's first point. *)
Lemma scan_errors (pts : list point) (temp dflt : Z) (e : exn) :
  (forall t1 s1 l, pts = (t1, s1) :: l -> t1 < temp) ->
  scan pts temp dflt = Exc e -> e = OverflowError \/ e = ValueError.
Proof.
  induction pts as [|[t1 s1] tl IH]; intros Hhd; [discriminate|].
  destruct tl as [|[t2 s2] tl']; [discriminate|].
  rewrite scan_step. pose proof (Hhd t1 s1 _ eq_refl) as H1.
  destruct ((t1 <=? temp) && (temp <=? t2)) eqn:E.
  - apply andb_true_iff in E. destruct E as [_ E]. apply Z.leb_le in E.
    apply interpolate_errors. lia.
  - apply andb_false_iff in E. destruct E as [E | E]; apply Z.leb_gt in E;
      [lia|].
    apply IH. intros t s l Heq. injection Heq as <- _ _. exact E.
Qed.

(** X6.  On every list of points, in order or not, [get_speed] raises
    [IndexError] exactly when the list is empty and never raises
    [ZeroDivisionError], also when two points share a temperature. *)
Theorem get_speed_errors (pts : list point) (temp : Z) :
  (get_speed pts temp = Exc IndexError <-> pts = []) /\
  get_speed pts temp <> Exc ZeroDivisionError.
Proof.
  assert (Hexc : forall e, pts <> [] -> get_speed pts temp = Exc e ->
                           e = OverflowError \/ e = ValueError).
  { intros e Hne. destruct pts as [|[t0 s0] l]; [congruence|].
    unfold get_speed. destruct (Z.leb_spec temp t0) as [Hle | Hgt];
      [discriminate|].
    destruct (last ((t0, s0) :: l) (t0, s0)) as [tn sn].
    destruct (temp >=? tn); [discriminate|].
    apply scan_errors. intros t s l' Heq. injection Heq as <- _ _. exact Hgt. }
  split; [split|].
  - intros H. destruct pts as [|p l]; [reflexivity|].
    destruct (Hexc IndexError ltac:(discriminate) H); discriminate.
  - intros ->. reflexivity.
  - intros H. destruct pts as [|p l]; [discriminate H|].
    destruct (Hexc ZeroDivisionError ltac:(discriminate) H); discriminate.
Qed.

(** Two points at the same temperature: the lower bracket answers. *)
Example get_speed_duplicate_temperature :
  get_speed [(30, 0); (50, 40); (50, 60); (90, 100)] 50 = Ret 40.
Proof. vm_compute. reflexivity. Qed.

End CurveObjects.

(* ------------------------------------------------------------------ *)
(** ** FanController: what the operations do to the device *)

Section FanDevice.
Import PyNum Ioctl FanController FanControllerSetup.

(** Closes a goal [exists r evs, (Ret r0, log ++ e1 ++ ...) = (Ret r, log ++ evs) /\ ...]
    once the computation has been run to its end. *)
Ltac close_with evs :=
  eexists; exists evs; split;
  [rewrite ?app_nil_r, <- ?app_assoc; reflexivity | ];
  split; [repeat constructor | simpl; lia].

Lemma get_fan_info_shape (drv : driver) (self : t) (fan_id : Z)
      (log : list event) :
  exists r evs,
    get_fan_info drv self fan_id log = (Ret r, log ++ evs) /\
    Forall (fun ev => is_read ev = true) evs /\
    (length evs <= 2)%nat.
Proof.
  unfold get_fan_info.
  destruct (fd self) as [h|]; [|close_with (@nil event)].
  destruct (h =? 0); [close_with (@nil event)|].
  unfold Eff.try_except, Eff.bind, Eff.lift, Eff.ret, ioctl_read_int32.
  destruct (platform self) as [[|]|]; [| |close_with (@nil event)].
  - destruct (PySeq.getitem CL_FANINFO fan_id) as [cmd|e];
      [|close_with (@nil event)].
    destruct (drv_read drv log cmd) as [v|]; [|close_with [EvRead h cmd]].
    destruct (speed_percent _); close_with [EvRead h cmd].
  - set (c1 := if fan_id =? 0 then R_UW_FANSPEED else R_UW_FANSPEED2).
    set (c2 := if fan_id =? 0 then R_UW_FAN_TEMP else R_UW_FAN_TEMP2).
    destruct (drv_read drv log c1) as [v|]; [|close_with [EvRead h c1]].
    destruct (drv_read drv (log ++ [EvRead h c1]) c2) as [w|];
      close_with [EvRead h c1; EvRead h c2].
Qed.

(** X7.  [get_fan_info] never raises, whatever the driver answers and
    whatever the fan index: it returns a reading after at most two read
    requests and no write. *)
Theorem get_fan_info_reads_only (drv : driver) (self : t) (fan_id : Z)
        (log : list event) :
  exists r evs,
    get_fan_info drv self fan_id log = (Ret r, log ++ evs) /\
    Forall (fun ev => is_read ev = true) evs /\
    (length evs <= 2)%nat.
Proof. apply get_fan_info_shape. Qed.

(** The loop of [set_fan_speed] issues read requests only. *)
Lemma collect_speeds_shape (drv : driver) (h fan_id raw : Z) (channels : list Z) :
  forall log,
  exists r evs,
    collect_speeds drv h fan_id raw channels log = (r, log ++ evs) /\
    Forall (fun ev => is_read ev = true) evs.
Proof.
  induction channels as [|c rest IH]; intros log.
  - exists (Ret []), []. rewrite app_nil_r. split; [reflexivity | constructor].
  - cbn [collect_speeds]. unfold Eff.bind at 1.
    destruct (c =? fan_id).
    + unfold Eff.ret at 1. unfold Eff.bind at 1.
      destruct (IH log) as (r & evs & -> & Hevs).
      destruct r; eexists; exists evs; (split; [reflexivity | exact Hevs]).
    + unfold Eff.bind at 1. unfold Eff.lift.
      destruct (PySeq.getitem CL_FANINFO c) as [cmd|e].
      * unfold Eff.bind at 1. unfold ioctl_read_int32.
        destruct (drv_read drv log cmd) as [v|].
        -- unfold Eff.ret at 1. unfold Eff.bind at 1.
           destruct (IH (log ++ [EvRead h cmd])) as (r & evs & -> & Hevs).
           destruct r; eexists; exists (EvRead h cmd :: evs);
             (split; [rewrite <- app_assoc; reflexivity
                     | constructor; [reflexivity | exact Hevs]]).
        -- eexists; exists [EvRead h cmd].
           split; [reflexivity | repeat constructor].
      * eexists; exists []. rewrite app_nil_r.
        split; [reflexivity | constructor].
Qed.

(** When the read of one channel to keep always fails, the loop raises. *)
Lemma collect_speeds_fails (drv : driver) (h fan_id raw i : Z) (channels : list Z) :
  0 <= i < 3 -> i <> fan_id ->
  (forall l, drv_read drv l (faninfo_request i) = None) ->
  In i channels ->
  forall log,
  exists e evs,
    collect_speeds drv h fan_id raw channels log = (Exc e, log ++ evs) /\
    Forall (fun ev => is_read ev = true) evs.
Proof.
  intros Hi Hne Hfail. induction channels as [|c rest IH]; intros Hin log;
    [contradiction|].
  cbn [collect_speeds]. unfold Eff.bind at 1.
  destruct (Z.eqb_spec c fan_id) as [-> | Hc].
  - destruct Hin as [E | Hin]; [congruence|].
    unfold Eff.ret at 1. unfold Eff.bind at 1.
    destruct (IH Hin log) as (e & evs & -> & Hevs).
    exists e, evs. split; [reflexivity | exact Hevs].
  - unfold Eff.bind at 1. unfold Eff.lift.
    destruct (PySeq.getitem CL_FANINFO c) as [cmd|e] eqn:Hcmd.
    + unfold Eff.bind at 1. unfold ioctl_read_int32.
      destruct (drv_read drv log cmd) as [v|] eqn:Hread.
      * destruct Hin as [-> | Hin].
        -- rewrite (getitem_CL_FANINFO i Hi) in Hcmd. injection Hcmd as <-.
           rewrite Hfail in Hread. discriminate.
        -- unfold Eff.ret at 1. unfold Eff.bind at 1.
           destruct (IH Hin (log ++ [EvRead h cmd])) as (e & evs & -> & Hevs).
           exists e, (EvRead h cmd :: evs).
           split; [rewrite <- app_assoc; reflexivity
                  | constructor; [reflexivity | exact Hevs]].
      * exists OSError, [EvRead h cmd].
        split; [reflexivity | repeat constructor].
    + exists e, []. rewrite app_nil_r. split; [reflexivity | constructor].
Qed.

Lemma set_fan_speed_shape (drv : driver) (self : t)
      (fan_id speed_pct : Z) (log : list event) :
  exists evs ws,
    set_fan_speed drv self fan_id speed_pct log = (Ret tt, log ++ evs ++ ws) /\
    Forall (fun ev => is_read ev = true) evs /\
    (ws = [] \/ exists h req val,
                  ws = [EvWrite h req val] /\ fits_int32 val = true).
Proof.
  unfold set_fan_speed.
  destruct (fd self) as [h|];
    [|exists [], []; rewrite !app_nil_r; repeat split; auto].
  destruct (h =? 0);
    [exists [], []; rewrite !app_nil_r; repeat split; auto|].
  unfold Eff.try_except.
  destruct (platform self) as [[|]|];
    [| |exists [], []; rewrite !app_nil_r; repeat split; auto].
  - unfold Eff.bind at 1. unfold Eff.lift.
    destruct (speed_raw_cl speed_pct) as [raw|e];
      [|exists [], []; rewrite !app_nil_r; repeat split; auto].
    unfold Eff.bind at 1.
    destruct (collect_speeds_shape drv h fan_id raw [0; 1; 2] log)
      as (r & evs & -> & Hevs).
    destruct r as [speeds|e];
      [|exists evs, []; rewrite app_nil_r; repeat split; auto].
    unfold ioctl_write_int32.
    destruct (fits_int32 (pack_speeds speeds)) eqn:Hfit;
      [|exists evs, []; rewrite app_nil_r; repeat split; auto].
    destruct (drv_write drv _ _ _);
      (exists evs, [EvWrite h W_CL_FANSPEED (pack_speeds speeds)];
       rewrite <- app_assoc; repeat split; auto;
       right; eexists _, _, _; split; [reflexivity | exact Hfit]).
  - unfold ioctl_write_int32.
    destruct (fits_int32 (speed_pct * 2)) eqn:Hfit;
      [|exists [], []; rewrite !app_nil_r; repeat split; auto].
    destruct (drv_write drv _ _ _);
      (exists [], [EvWrite h (if fan_id =? 0 then W_UW_FANSPEED else W_UW_FANSPEED2)
                     (speed_pct * 2)];
       cbn [app]; repeat split; auto;
       right; eexists _, _, _; split; [reflexivity | exact Hfit]).
Qed.

(** X8.  [set_fan_speed] never raises.  What it sends to the device is a
    run of read requests followed by at most one write, of a value that
    fits 32 bits.  On clevo, when the read-back of a channel to keep
    fails, no write is sent at all: the speeds in the device stay as they
    are. *)
Theorem set_fan_speed_one_write (drv : driver) (self : t)
        (fan_id speed_pct : Z) (log : list event) :
  (exists evs ws,
      set_fan_speed drv self fan_id speed_pct log = (Ret tt, log ++ evs ++ ws) /\
      Forall (fun ev => is_read ev = true) evs /\
      (ws = [] \/ exists h req val,
                    ws = [EvWrite h req val] /\ fits_int32 val = true)) /\
  (forall h i,
      fd self = Some h -> h <> 0 -> platform self = Some clevo ->
      0 <= i < 3 -> i <> fan_id ->
      (forall l, drv_read drv l (faninfo_request i) = None) ->
      exists evs,
        set_fan_speed drv self fan_id speed_pct log = (Ret tt, log ++ evs) /\
        Forall (fun ev => is_read ev = true) evs).
Proof.
  split; [apply set_fan_speed_shape|].
  intros h i Hfd Hh Hplat Hi Hne Hfail.
    unfold set_fan_speed. rewrite Hfd, Hplat.
    apply Z.eqb_neq in Hh. rewrite Hh.
    unfold Eff.try_except. unfold Eff.bind at 1. unfold Eff.lift.
    destruct (speed_raw_cl speed_pct) as [raw|e];
      [|exists []; rewrite app_nil_r; split; [reflexivity | constructor]].
    unfold Eff.bind at 1.
    destruct (collect_speeds_fails drv h fan_id raw i [0; 1; 2] Hi Hne Hfail)
      with (log := log) as (e & evs & -> & Hevs).
    { simpl. lia. }
    exists evs. split; [reflexivity | exact Hevs].
Qed.

Lemma set_fan_speed_one_write_witness :
  exists evs,
    set_fan_speed failing_driver {| fd := Some 3; platform := Some clevo |} 0 50 []
    = (Ret tt, [] ++ evs) /\
    Forall (fun ev => is_read ev = true) evs.
Proof.
  apply (proj2 (set_fan_speed_one_write failing_driver
                  {| fd := Some 3; platform := Some clevo |} 0 50 []) 3 1).
  - reflexivity.
  - lia.
  - reflexivity.
  - lia.
  - lia.
  - intros l. reflexivity.
Defined.

(** X9.  Building a controller never raises and sends only read probes:
    the clevo probe first, the uniwill probe only after a clevo probe
    that did not answer 1.  A platform is recorded only together with the
    open descriptor, and it is clevo exactly when the device opened and
    the first probe answered 1. *)
Theorem init_outcomes (drv : driver) (opened : option Z) (log : list event) :
  exists self evs,
    init drv opened log = (Ret self, log ++ evs) /\
    (opened = None -> evs = [] /\ fd self = None /\ platform self = None) /\
    (forall h, opened = Some h ->
               evs = [EvRead h R_HWCHECK_CL] \/
               (evs = [EvRead h R_HWCHECK_CL; EvRead h R_HWCHECK_UW] /\
                platform self <> Some clevo)) /\
    (platform self <> None -> opened <> None /\ fd self = opened) /\
    (platform self = Some clevo <->
     exists h v, opened = Some h /\
                 drv_read drv log R_HWCHECK_CL = Some v /\ to_int32 v = 1).
Proof.
  assert (Hcase : forall self evs,
    init drv opened log = (Ret self, log ++ evs) ->
    (opened = None -> evs = [] /\ fd self = None /\ platform self = None) ->
    (forall h, opened = Some h ->
               evs = [EvRead h R_HWCHECK_CL] \/
               (evs = [EvRead h R_HWCHECK_CL; EvRead h R_HWCHECK_UW] /\
                platform self <> Some clevo)) ->
    (platform self <> None -> opened <> None /\ fd self = opened) ->
    (platform self = Some clevo ->
     exists h v, opened = Some h /\
                 drv_read drv log R_HWCHECK_CL = Some v /\ to_int32 v = 1) ->
    ((exists h v, opened = Some h /\
                  drv_read drv log R_HWCHECK_CL = Some v /\ to_int32 v = 1) ->
     platform self = Some clevo) ->
    exists self evs,
      init drv opened log = (Ret self, log ++ evs) /\
      (opened = None -> evs = [] /\ fd self = None /\ platform self = None) /\
      (forall h, opened = Some h ->
                 evs = [EvRead h R_HWCHECK_CL] \/
                 (evs = [EvRead h R_HWCHECK_CL; EvRead h R_HWCHECK_UW] /\
                  platform self <> Some clevo)) /\
      (platform self <> None -> opened <> None /\ fd self = opened) /\
      (platform self = Some clevo <->
       exists h v, opened = Some h /\
                   drv_read drv log R_HWCHECK_CL = Some v /\ to_int32 v = 1)).
  { intros self evs H1 H2 H3 H4 H5 H6. exists self, evs.
    split; [exact H1|]. split; [exact H2|]. split; [exact H3|].
    split; [exact H4|]. split; [exact H5 | exact H6]. }
  unfold init, connect in *. destruct opened as [h|].
  - unfold Eff.try_except, Eff.bind, Eff.ret, ioctl_read_int32 in *.
    destruct (drv_read drv log R_HWCHECK_CL) as [v|] eqn:Hcl.
    + destruct (to_int32 v =? 1) eqn:Hv.
      * apply Z.eqb_eq in Hv.
        apply (Hcase {| fd := Some h; platform := Some clevo |}
                     [EvRead h R_HWCHECK_CL]); cbn [fd platform].
        -- reflexivity.
        -- discriminate.
        -- intros h' Hh'. injection Hh' as <-. left. reflexivity.
        -- intros _. split; [discriminate | reflexivity].
        -- intros _. exists h, v. auto.
        -- reflexivity.
      * apply Z.eqb_neq in Hv.
        destruct (drv_read drv (log ++ [EvRead h R_HWCHECK_CL]) R_HWCHECK_UW)
          as [w|].
        -- destruct (to_int32 w =? 1).
           ++ apply (Hcase {| fd := Some h; platform := Some uniwill |}
                           [EvRead h R_HWCHECK_CL; EvRead h R_HWCHECK_UW]);
                cbn [fd platform].
              ** rewrite <- app_assoc. reflexivity.
              ** discriminate.
              ** intros h' Hh'. injection Hh' as <-. right.
                 split; [reflexivity | discriminate].
              ** intros _. split; [discriminate | reflexivity].
              ** discriminate.
              ** intros (h' & v' & _ & Hr & Hone). congruence.
           ++ apply (Hcase {| fd := Some h; platform := None |}
                           [EvRead h R_HWCHECK_CL; EvRead h R_HWCHECK_UW]);
                cbn [fd platform].
              ** rewrite <- app_assoc. reflexivity.
              ** discriminate.
              ** intros h' Hh'. injection Hh' as <-. right.
                 split; [reflexivity | discriminate].
              ** intros H. exfalso. apply H. reflexivity.
              ** discriminate.
              ** intros (h' & v' & _ & Hr & Hone). congruence.
        -- apply (Hcase {| fd := None; platform := None |}
                        [EvRead h R_HWCHECK_CL; EvRead h R_HWCHECK_UW]);
             cbn [fd platform].
           ++ rewrite <- app_assoc. reflexivity.
           ++ discriminate.
           ++ intros h' Hh'. injection Hh' as <-. right.
              split; [reflexivity | discriminate].
           ++ intros H. exfalso. apply H. reflexivity.
           ++ discriminate.
           ++ intros (h' & v' & _ & Hr & Hone). congruence.
    + apply (Hcase {| fd := None; platform := None |} [EvRead h R_HWCHECK_CL]);
        cbn [fd platform].
      * reflexivity.
      * discriminate.
      * intros h' Hh'. injection Hh' as <-. left. reflexivity.
      * intros H. exfalso. apply H. reflexivity.
      * discriminate.
      * intros (h' & v' & _ & Hr & _). congruence.
  - apply (Hcase {| fd := None; platform := None |} []); cbn [fd platform].
    + unfold Eff.ret. rewrite app_nil_r. reflexivity.
    + intros _. repeat split.
    + discriminate.
    + intros H. exfalso. apply H. reflexivity.
    + discriminate.
    + intros (h' & v' & Ho & _). discriminate Ho.
Qed.

Lemma call_no_platform (drv : driver) (self : t) (o : op) (log : list event) :
  platform self = None -> call drv self o log = (Ret (inert o), log).
Proof.
  intros Hp. destruct o; unfold call, Eff.bind, get_fan_info, set_fan_speed,
    set_auto, set_manual_mode, Eff.try_except; rewrite Hp;
    destruct (fd self) as [h|]; try reflexivity;
    destruct (h =? 0); reflexivity.
Qed.

(** X10.  On a controller without a platform, the descriptor open or
    not, no operation reaches the device: every sequence of operations
    returns the reading (0, 0) for each read and sends no request. *)
Theorem no_platform_inert (drv : driver) (self : t) (os : list op)
        (log : list event) :
  platform self = None ->
  calls drv self os log = (Ret (map inert os), log).
Proof.
  intros Hp. induction os as [|o rest IH]; [reflexivity|].
  cbn [calls map]. unfold Eff.bind at 1.
  rewrite (call_no_platform drv self o log Hp).
  unfold Eff.bind at 1. rewrite IH. reflexivity.
Qed.

Lemma no_platform_inert_witness :
  calls demo_driver {| fd := Some 3; platform := None |}
        [GetFanInfo 0; SetFanSpeed 1 80; SetAuto; SetManualMode] []
  = (Ret [Reading 0 0; Done; Done; Done], []).
Proof.
  apply (no_platform_inert demo_driver {| fd := Some 3; platform := None |}
           [GetFanInfo 0; SetFanSpeed 1 80; SetAuto; SetManualMode] []).
  reflexivity.
Defined.

Lemma reads_no_write (evs : list event) :
  Forall (fun ev => is_read ev = true) evs -> filter is_write evs = [].
Proof.
  induction 1 as [|ev evs Hev _ IH]; [reflexivity|].
  cbn [filter]. destruct ev; try discriminate. exact IH.
Qed.

Lemma one_write_count (evs ws : list event) :
  Forall (fun ev => is_read ev = true) evs ->
  (ws = [] \/ exists h req val,
                ws = [EvWrite h req val] /\ fits_int32 val = true) ->
  (length (filter is_write (evs ++ ws)) <= 1)%nat.
Proof.
  intros Hevs Hws. rewrite filter_app, (reads_no_write evs Hevs).
  destruct Hws as [-> | (h & req & val & -> & _)]; simpl; lia.
Qed.

(** The two speed writes that end a turn of the loop. *)
Lemma set_both_shape (drv : driver) (self : t) (s0 s1 : Z) (log : list event) :
  exists evs,
    Eff.bind (set_fan_speed drv self 0 s0)
             (fun _ => set_fan_speed drv self 1 s1) log
    = (Ret tt, log ++ evs) /\
    (length (filter is_write evs) <= 2)%nat.
Proof.
  unfold Eff.bind.
  destruct (set_fan_speed_shape drv self 0 s0 log) as (e0 & w0 & -> & He0 & Hw0).
  destruct (set_fan_speed_shape drv self 1 s1 (log ++ e0 ++ w0))
    as (e1 & w1 & -> & He1 & Hw1).
  exists ((e0 ++ w0) ++ e1 ++ w1). split; [rewrite <- app_assoc; reflexivity|].
  rewrite filter_app, length_app.
  pose proof (one_write_count e0 w0 He0 Hw0).
  pose proof (one_write_count e1 w1 He1 Hw1). lia.
Qed.

(** X11.  A turn of the fan loop never raises, whatever the driver does
    and whatever the curves hold.  With curve control off it only reads,
    at most four requests; with it on it sends at most two writes. *)
Theorem fan_loop_step_safe (drv : driver) (self : t) (cfg : fan_settings)
        (log : list event) :
  exists evs,
    fan_loop_step drv self cfg log = (Ret tt, log ++ evs) /\
    (auto_control cfg = false ->
     Forall (fun ev => is_read ev = true) evs /\ (length evs <= 4)%nat) /\
    (length (filter is_write evs) <= 2)%nat.
Proof.
  unfold fan_loop_step, Eff.try_except. unfold Eff.bind at 1.
  destruct (get_fan_info_shape drv self 0 log) as (cpu & e0 & -> & He0 & Hl0).
  unfold Eff.bind at 1.
  destruct (get_fan_info_shape drv self 1 (log ++ e0))
    as (gpu & e1 & -> & He1 & Hl1).
  assert (Hreads : Forall (fun ev => is_read ev = true) (e0 ++ e1))
    by (apply Forall_app; split; assumption).
  assert (Hlen : (length (e0 ++ e1) <= 4)%nat) by (rewrite length_app; lia).
  assert (Hnone : exists evs,
             (Ret tt, (log ++ e0) ++ e1) = (Ret tt, log ++ evs) /\
             (auto_control cfg = false ->
              Forall (fun ev => is_read ev = true) evs /\ (length evs <= 4)%nat) /\
             (length (filter is_write evs) <= 2)%nat).
  { exists (e0 ++ e1). split; [rewrite <- app_assoc; reflexivity|].
    split; [intros _; split; assumption|].
    rewrite (reads_no_write _ Hreads). simpl. lia. }
  assert (Hboth : forall s0 s1, exists evs,
             (let (r, s') :=
                Eff.bind (set_fan_speed drv self 0 s0)
                         (fun _ => set_fan_speed drv self 1 s1)
                         ((log ++ e0) ++ e1) in
              match r with
              | Ret a => (Ret a, s')
              | Exc _ => (Ret tt, s')
              end) = (Ret tt, log ++ evs) /\
             (auto_control cfg = true ->
              (length (filter is_write evs) <= 2)%nat)).
  { intros s0 s1.
    destruct (set_both_shape drv self s0 s1 ((log ++ e0) ++ e1))
      as (ev & -> & Hev).
    exists ((e0 ++ e1) ++ ev). split; [rewrite <- !app_assoc; reflexivity|].
    intros _. rewrite filter_app, (reads_no_write _ Hreads). exact Hev. }
  destruct (auto_control cfg) eqn:Hauto; [|exact Hnone].
  destruct (curve_mode cfg =? 0).
  - unfold Eff.bind at 1. unfold Eff.lift.
    destruct (FanCurve.get_speed (fan_curve_common cfg) _) as [speed|e].
    + destruct (Hboth speed speed) as (evs & Heq & Hw).
      exists evs. split; [exact Heq|]. split; [discriminate | auto].
    + destruct Hnone as (evs & Heq & _ & Hw). exists evs.
      split; [exact Heq|]. split; [discriminate | exact Hw].
  - unfold Eff.bind at 1. unfold Eff.lift.
    destruct (FanCurve.get_speed (fan_curve_cpu cfg) _) as [s0|e].
    + unfold Eff.bind at 1.
      destruct (FanCurve.get_speed (fan_curve_gpu cfg) _) as [s1|e].
      * destruct (Hboth s0 s1) as (evs & Heq & Hw).
        exists evs. split; [exact Heq|]. split; [discriminate | auto].
      * destruct Hnone as (evs & Heq & _ & Hw). exists evs.
        split; [exact Heq|]. split; [discriminate | exact Hw].
    + destruct Hnone as (evs & Heq & _ & Hw). exists evs.
      split; [exact Heq|]. split; [discriminate | exact Hw].
Qed.

(** The four fields of a request code sit side by side. *)
Lemma _IOC_sum (d t n s : Z) :
  0 <= d < 4 -> 0 <= t < 256 -> 0 <= n < 256 -> 0 <= s < 2 ^ 14 ->
  _IOC d t n s = n + t * 2 ^ 8 + s * 2 ^ 16 + d * 2 ^ 30.
Proof.
  intros Hd Ht Hn Hs. unfold _IOC, _IOC_DIRSHIFT, _IOC_TYPESHIFT,
    _IOC_NRSHIFT, _IOC_SIZESHIFT.
  rewrite (Z.shiftl_0_r n).
  assert (E : forall a b c e,
             Z.lor (Z.lor (Z.lor a b) c) e = Z.lor c (Z.lor b (Z.lor e a))).
  { intros a b c e. apply Z.bits_inj'. intros k _. rewrite !Z.lor_spec.
    destruct (Z.testbit a k), (Z.testbit b k), (Z.testbit c k),
      (Z.testbit e k); reflexivity. }
  rewrite E.
  rewrite (Z.shiftl_mul_pow2 s 16), (Z.shiftl_mul_pow2 t 8) by lia.
  rewrite (lor_shiftl_add (s * 2 ^ 16) d 30) by lia.
  replace (s * 2 ^ 16 + d * 2 ^ 30) with (Z.shiftl (s + d * 2 ^ 14) 16)
    by (rewrite Z.shiftl_mul_pow2 by lia; lia).
  rewrite (lor_shiftl_add (t * 2 ^ 8) _ 16) by lia.
  replace (t * 2 ^ 8 + (s + d * 2 ^ 14) * 2 ^ 16)
    with (Z.shiftl (t + (s + d * 2 ^ 14) * 2 ^ 8) 8)
    by (rewrite Z.shiftl_mul_pow2 by lia; lia).
  rewrite (lor_shiftl_add n _ 8) by lia. lia.
Qed.

(** X12.  A request code built by [_IOC] from a direction below 4, a
    type and a number below 256 and a size below 2^14 is a 32-bit value
    that holds the four fields side by side, so two codes are equal only
    when all four fields are. *)
Theorem _IOC_injective (d t n s d' t' n' s' : Z) :
  0 <= d < 4 -> 0 <= t < 256 -> 0 <= n < 256 -> 0 <= s < 2 ^ 14 ->
  0 <= d' < 4 -> 0 <= t' < 256 -> 0 <= n' < 256 -> 0 <= s' < 2 ^ 14 ->
  0 <= _IOC d t n s < 2 ^ 32 /\
  _IOC d t n s = n + t * 2 ^ 8 + s * 2 ^ 16 + d * 2 ^ 30 /\
  (_IOC d t n s = _IOC d' t' n' s' -> d = d' /\ t = t' /\ n = n' /\ s = s').
Proof.
  intros Hd Ht Hn Hs Hd' Ht' Hn' Hs'.
  rewrite (_IOC_sum d t n s), (_IOC_sum d' t' n' s') by assumption.
  repeat split; lia.
Qed.

Lemma _IOC_injective_witness :
  0 <= R_CL_FANINFO1 < 2 ^ 32 /\
  R_CL_FANINFO1 = 0x10 + MAGIC_READ_CL * 2 ^ 8 + PTR_SIZE * 2 ^ 16 + _IOC_READ * 2 ^ 30 /\
  (R_CL_FANINFO1 = W_CL_FANSPEED ->
   _IOC_READ = _IOC_WRITE /\ MAGIC_READ_CL = MAGIC_WRITE_CL /\ 0x10 = 0x10 /\
   PTR_SIZE = PTR_SIZE).
Proof.
  apply (_IOC_injective _IOC_READ MAGIC_READ_CL 0x10 PTR_SIZE
                        _IOC_WRITE MAGIC_WRITE_CL 0x10 PTR_SIZE);
    vm_compute; split; congruence.
Defined.

Lemma call_closed (drv : driver) (self : t) (o : op) (log : list event) :
  fd self = None \/ fd self = Some 0 ->
  call drv self o log = (Ret (inert o), log).
Proof.
  intros [Hfd | Hfd]; destruct o;
    unfold call, Eff.bind, get_fan_info, set_fan_speed, set_auto,
      set_manual_mode; rewrite Hfd; reflexivity.
Qed.

(** X20.  After [disconnect] no operation reaches the device, whatever
    the controller was: every sequence of operations returns the reading
    (0, 0) for each read and sends no request.  The descriptor handed to
    [os.close] is the one that was open, and a controller whose
    descriptor is 0 is left as it is, nothing being closed. *)
Theorem disconnect_inert (drv : driver) (self : t) (os : list op)
        (log : list event) :
  calls drv (fst (disconnect self)) os log = (Ret (map inert os), log) /\
  (forall h, snd (disconnect self) = Some h -> fd self = Some h /\ h <> 0) /\
  (fd self = Some 0 -> disconnect self = (self, None)).
Proof.
  split; [|split].
  - assert (Hfd : fd (fst (disconnect self)) = None \/
                  fd (fst (disconnect self)) = Some 0).
    { unfold disconnect. destruct (fd self) as [h|] eqn:E; [|left; exact E].
      destruct (Z.eqb_spec h 0) as [-> | Hh]; [right; exact E | left; reflexivity]. }
    induction os as [|o rest IH]; [reflexivity|].
    cbn [calls map]. unfold Eff.bind at 1.
    rewrite (call_closed drv _ o log Hfd).
    unfold Eff.bind at 1. rewrite IH. reflexivity.
  - intros h. unfold disconnect. destruct (fd self) as [h'|]; [|discriminate].
    destruct (Z.eqb_spec h' 0) as [-> | Hh]; [discriminate|].
    cbn [snd]. intros H. injection H as <-. split; [reflexivity | exact Hh].
  - intros H. unfold disconnect. rewrite H. reflexivity.
Qed.

End FanDevice.

(* ------------------------------------------------------------------ *)
(** ** KeyboardBacklightController: writing and reading back *)

Section BacklightRoundTrip.
Import KeyboardBacklightController.

Lemma write_each_all_ok (a : attr_name) (v : list Z) (paths : list path)
      (fs : sysfs) :
  (forall q, In q paths -> writable_or_absent fs a q = true) ->
  exists fs',
    write_each a v paths fs = (Ret true, fs') /\
    attempts fs' = attempts fs ++ attempts_of a v paths fs /\
    (forall q a', file fs' q a' = file_after a v paths fs q a').
Proof.
  intros Hok.
  destruct (write_each_prefix a v paths [] fs Hok) as (fs1 & Hrun & Hlog & Hfile).
  rewrite app_nil_r in Hrun. exists fs1. split; [exact Hrun|].
  split; assumption.
Qed.

Lemma existsb_eqb_in (q : path) (paths : list path) :
  In q paths -> existsb (String.eqb q) paths = true.
Proof.
  intros Hin. apply existsb_exists. exists q.
  split; [exact Hin | apply String.eqb_refl].
Qed.

(** The file of a directory written by [write_each] reads as [v]. *)
Lemma read_attr_written (a : attr_name) (v : list Z) (paths : list path)
      (fs fs' : sysfs) (q : path) (f : attr) :
  (forall q a', file fs' q a' = file_after a v paths fs q a') ->
  In q paths -> file fs q a = Some f -> can_read f = true ->
  read_attr fs' q a = Ret v /\ exists_ fs' q a = true /\
  content_of fs' q a = Some v.
Proof.
  intros Hfile Hin Hf Hr. unfold read_attr, exists_, content_of.
  rewrite Hfile. unfold file_after. rewrite Hf.
  destruct a; cbn [attr_name_eqb andb]; rewrite (existsb_eqb_in q paths Hin);
    cbn [can_read content option_map]; rewrite Hr; repeat split.
Qed.

Lemma file_after_other (a a' : attr_name) (v : list Z) (paths : list path)
      (fs : sysfs) (q : path) :
  a' <> a -> file_after a v paths fs q a' = file fs q a'.
Proof.
  intros Hne. unfold file_after. destruct (file fs q a'); [|reflexivity].
  replace (attr_name_eqb a' a) with false; [reflexivity|].
  symmetry. destruct a', a; try reflexivity; congruence.
Qed.

(** X13.  When every zone's brightness file is writable or absent,
    [set_brightness] returns [True], every brightness file that exists
    holds the value clamped into 0..max_brightness, the colour files are
    untouched, and [get_brightness] then returns that clamped value when
    the first zone's file is readable. *)
Theorem set_brightness_then_get (self : t) (fs : sysfs) (p0 : path)
        (rest : list path) (b : Z) (f0 : attr) :
  kbd_backlight_paths self = p0 :: rest ->
  (forall q, In q (p0 :: rest) -> writable_or_absent fs brightness q = true) ->
  file fs p0 brightness = Some f0 -> can_read f0 = true ->
  let v := Z.max 0 (Z.min b (max_brightness self)) in
  exists fs',
    set_brightness self b fs = (Ret true, fs') /\
    get_brightness self fs' = v /\
    (forall q, In q (p0 :: rest) -> exists_ fs q brightness = true ->
               content_of fs' q brightness = Some [v]) /\
    (forall q, file fs' q multi_intensity = file fs q multi_intensity).
Proof.
  intros Hp Hok Hf0 Hr0 v.
  rewrite set_brightness_write_each by (rewrite Hp; discriminate).
  rewrite Hp. fold v.
  destruct (write_each_all_ok brightness [v] (p0 :: rest) fs Hok)
    as (fs' & Hrun & _ & Hfile).
  exists fs'. split; [exact Hrun|]. split; [|split].
  - apply (get_brightness_read self fs' p0 rest v Hp).
    apply (read_attr_written brightness [v] (p0 :: rest) fs fs' p0 f0);
      try assumption. left. reflexivity.
  - intros q Hin Hex. unfold content_of. rewrite Hfile. unfold file_after.
    unfold exists_ in Hex. destruct (file fs q brightness) as [f|];
      [|discriminate].
    cbn [attr_name_eqb andb]. rewrite (existsb_eqb_in q _ Hin). reflexivity.
  - intros q. rewrite Hfile. apply file_after_other. discriminate.
Qed.

Lemma set_brightness_then_get_witness :
  exists fs',
    set_brightness sample_kbd 300 (sample_fs String.EmptyString) = (Ret true, fs') /\
    get_brightness sample_kbd fs' = 255 /\
    (forall q, In q [LedPaths.zone0; LedPaths.zone1; LedPaths.zone2] ->
               exists_ (sample_fs String.EmptyString) q brightness = true ->
               content_of fs' q brightness = Some [255]) /\
    (forall q, file fs' q multi_intensity
               = file (sample_fs String.EmptyString) q multi_intensity).
Proof.
  apply (set_brightness_then_get sample_kbd (sample_fs String.EmptyString)
           LedPaths.zone0 [LedPaths.zone1; LedPaths.zone2] 300
           {| content := [120]; can_read := true; can_write := true |}).
  - reflexivity.
  - intros q [<- | [<- | [<- | []]]]; reflexivity.
  - reflexivity.
  - reflexivity.
Defined.

(** X14.  When every zone's colour file is writable or absent,
    [set_color] on all zones returns [True], leaves the brightness files
    untouched, and [get_color] then returns, for every zone whose colour
    file is readable, the colour clamped into 0..255 per component. *)
Theorem set_color_then_get (self : t) (fs : sysfs) (r g b : Z) :
  has_rgb self = true ->
  (forall q, In q (kbd_backlight_paths self) ->
             writable_or_absent fs multi_intensity q = true) ->
  let c := (Z.max 0 (Z.min 255 r), Z.max 0 (Z.min 255 g), Z.max 0 (Z.min 255 b)) in
  exists fs',
    set_color self r g b None fs = (Ret true, fs') /\
    (forall k p f,
        nth_error (kbd_backlight_paths self) k = Some p ->
        file fs p multi_intensity = Some f -> can_read f = true ->
        get_color self fs' (Z.of_nat k) = c) /\
    (forall q, file fs' q brightness = file fs q brightness).
Proof.
  intros Hrgb Hok c.
  rewrite set_color_all_write_each by exact Hrgb.
  destruct (write_each_all_ok multi_intensity
              [Z.max 0 (Z.min 255 r); Z.max 0 (Z.min 255 g); Z.max 0 (Z.min 255 b)]
              (kbd_backlight_paths self) fs Hok) as (fs' & Hrun & _ & Hfile).
  exists fs'. split; [exact Hrun|]. split.
  - intros k p f Hk Hf Hr.
    assert (Hlen : (k < length (kbd_backlight_paths self))%nat)
      by (apply nth_error_Some; congruence).
    destruct (read_attr_written multi_intensity _ _ fs fs' p f Hfile
                (nth_error_In _ _ Hk) Hf Hr) as (Hread & Hex & _).
    unfold get_color. rewrite Hrgb. cbn [negb orb].
    replace (Z.of_nat k >=? Z.of_nat (length (kbd_backlight_paths self)))
      with false by test_lia.
    rewrite (getitem_of_nat _ _ _ Hk), Hex, Hread. reflexivity.
  - intros q. rewrite Hfile. apply file_after_other. discriminate.
Qed.

Lemma set_color_then_get_witness :
  exists fs',
    set_color sample_kbd 0 300 (-5) None (sample_fs String.EmptyString)
    = (Ret true, fs') /\
    (forall k p f,
        nth_error (kbd_backlight_paths sample_kbd) k = Some p ->
        file (sample_fs String.EmptyString) p multi_intensity = Some f ->
        can_read f = true ->
        get_color sample_kbd fs' (Z.of_nat k) = (0, 255, 0)) /\
    (forall q, file fs' q brightness
               = file (sample_fs String.EmptyString) q brightness).
Proof.
  apply (set_color_then_get sample_kbd (sample_fs String.EmptyString) 0 300 (-5)).
  - reflexivity.
  - intros q [<- | [<- | [<- | []]]]; reflexivity.
Defined.

(** X15.  [set_brightness] never raises, and whatever the permissions
    every write it attempts carries the one value [b] clamped into
    0..max_brightness; it never changes a colour file, and without any
    zone it returns [False] with no attempt. *)
Theorem set_brightness_clamped (self : t) (fs : sysfs) (b : Z) :
  0 <= max_brightness self ->
  let v := Z.max 0 (Z.min b (max_brightness self)) in
  0 <= v <= max_brightness self /\
  exists ok fs' extra,
    set_brightness self b fs = (Ret ok, fs') /\
    attempts fs' = attempts fs ++ extra /\
    Forall (carries brightness [v]) extra /\
    (forall q, file fs' q multi_intensity = file fs q multi_intensity) /\
    (kbd_backlight_paths self = [] -> ok = false /\ extra = []).
Proof.
  intros Hmax v. split; [unfold v; lia|].
  destruct (kbd_backlight_paths self) as [|p0 rest] eqn:Hp.
  - exists false, fs, []. unfold set_brightness. rewrite Hp.
    unfold Eff.ret. rewrite app_nil_r. repeat split; constructor.
  - rewrite set_brightness_write_each by (rewrite Hp; discriminate).
    fold v. rewrite Hp.
    destruct (write_each_total brightness [v] (p0 :: rest) fs)
      as (ok & done & fs' & extra & Hrun & Hfile & Hlog & Hall & _).
    exists ok, fs', extra. split; [exact Hrun|]. split; [exact Hlog|].
    split; [exact Hall|]. split; [|discriminate].
    intros q. rewrite Hfile. apply file_after_other. discriminate.
Qed.

Lemma set_brightness_clamped_witness :
  0 <= Z.max 0 (Z.min (-7) 255) <= 255 /\
  exists ok fs' extra,
    set_brightness sample_kbd (-7) (sample_fs LedPaths.zone1) = (Ret ok, fs') /\
    attempts fs' = attempts (sample_fs LedPaths.zone1) ++ extra /\
    Forall (carries brightness [Z.max 0 (Z.min (-7) 255)]) extra /\
    (forall q, file fs' q multi_intensity
               = file (sample_fs LedPaths.zone1) q multi_intensity) /\
    (kbd_backlight_paths sample_kbd = [] -> ok = false /\ extra = []).
Proof.
  apply (set_brightness_clamped sample_kbd (sample_fs LedPaths.zone1) (-7)).
  simpl. lia.
Defined.

Lemma getitem_out_of_range (l : list path) (z : Z) :
  z < - Z.of_nat (length l) -> PySeq.getitem l z = Exc IndexError.
Proof.
  intros Hz. unfold PySeq.getitem.
  replace (z <? 0) with true by test_lia.
  replace (0 <=? z + Z.of_nat (length l)) with false by test_lia.
  reflexivity.
Qed.

(** X16.  [set_color] on one zone never raises and attempts at most one
    write, on the directory that Python's indexing gives for the zone (a
    negative zone counts from the last); no brightness file and no file
    of another directory changes.  A zone at or past the number of
    directories is skipped and the call still returns [True]; a zone
    below minus that number returns [False]; neither writes. *)
Theorem set_color_one_zone (self : t) (fs : sysfs) (r g b z : Z) :
  has_rgb self = true ->
  let v := [Z.max 0 (Z.min 255 r); Z.max 0 (Z.min 255 g); Z.max 0 (Z.min 255 b)] in
  let n := Z.of_nat (length (kbd_backlight_paths self)) in
  exists ok fs' extra,
    set_color self r g b (Some z) fs = (Ret ok, fs') /\
    attempts fs' = attempts fs ++ extra /\
    (extra = [] \/
     exists p, PySeq.getitem (kbd_backlight_paths self) z = Ret p /\
               extra = [(p, multi_intensity, v)]) /\
    (forall q a,
        a = brightness \/ PySeq.getitem (kbd_backlight_paths self) z <> Ret q ->
        file fs' q a = file fs q a) /\
    (n <= z -> ok = true /\ extra = []) /\
    (z < - n -> ok = false /\ extra = []).
Proof.
  intros Hrgb v n. unfold set_color. rewrite Hrgb. cbn [negb set_color_loop].
  fold n. fold v.
  destruct (Z.geb_spec z n) as [Hge | Hlt].
  - exists true, fs, []. unfold Eff.ret. rewrite app_nil_r.
    repeat split; auto. lia.
  - unfold Eff.bind, Eff.lift.
    destruct (PySeq.getitem (kbd_backlight_paths self) z) as [p|e] eqn:Hget.
    + unfold exists_, write_attr. cbv beta.
      destruct (file fs p multi_intensity) as [f|] eqn:Hf; rewrite ?Hf.
      * destruct (can_write f) eqn:Hw; rewrite ?Hw.
        -- eexists true, _, [(p, multi_intensity, v)]. cbn [file attempts].
           split; [reflexivity|]. split; [reflexivity|].
           split; [right; exists p; auto|].
           split; [|split; [lia|]].
           ++ intros q a Hqa. cbn [file]. unfold store.
              destruct (String.eqb q p) eqn:Eqp; [|reflexivity].
              apply String.eqb_eq in Eqp. subst q.
              destruct a; cbn [attr_name_eqb andb]; [reflexivity|].
              destruct Hqa as [Ha | Hq]; [discriminate | congruence].
           ++ intros Hz. unfold n in Hz.
              rewrite (getitem_out_of_range _ _ Hz) in Hget. discriminate.
        -- eexists false, _, [(p, multi_intensity, v)]. cbn [file attempts].
           split; [reflexivity|]. split; [reflexivity|].
           split; [right; exists p; auto|].
           split; [reflexivity|]. split; [lia|].
           intros Hz. unfold n in Hz.
           rewrite (getitem_out_of_range _ _ Hz) in Hget. discriminate.
      * exists true, fs, []. unfold Eff.ret. rewrite app_nil_r.
        split; [reflexivity|]. split; [reflexivity|].
        split; [left; reflexivity|]. split; [reflexivity|]. split; [lia|].
        intros Hz. unfold n in Hz.
        rewrite (getitem_out_of_range _ _ Hz) in Hget. discriminate.
    + exists false, fs, []. rewrite app_nil_r. repeat split; auto. lia.
Qed.

Lemma set_color_one_zone_witness :
  exists ok fs' extra,
    set_color sample_kbd 10 20 30 (Some (-1)) (sample_fs String.EmptyString)
    = (Ret ok, fs') /\
    attempts fs' = attempts (sample_fs String.EmptyString) ++ extra /\
    (extra = [] \/
     exists p, PySeq.getitem (kbd_backlight_paths sample_kbd) (-1) = Ret p /\
               extra = [(p, multi_intensity, [10; 20; 30])]) /\
    (forall q a,
        a = brightness \/
        PySeq.getitem (kbd_backlight_paths sample_kbd) (-1) <> Ret q ->
        file fs' q a = file (sample_fs String.EmptyString) q a) /\
    (3 <= -1 -> ok = true /\ extra = []) /\
    (-1 < - 3 -> ok = false /\ extra = []).
Proof.
  apply (set_color_one_zone sample_kbd (sample_fs String.EmptyString) 10 20 30 (-1)).
  reflexivity.
Defined.

(** Zone -1 is the last zone; zone 3 of three is skipped with [True]. *)
Example set_color_zone_edges :
  attempts (snd (set_color sample_kbd 10 20 30 (Some (-1))
                           (sample_fs String.EmptyString)))
  = [(LedPaths.zone2, multi_intensity, [10; 20; 30])] /\
  fst (set_color sample_kbd 10 20 30 (Some 3) (sample_fs String.EmptyString))
  = Ret true /\
  attempts (snd (set_color sample_kbd 10 20 30 (Some 3)
                           (sample_fs String.EmptyString))) = [].
Proof. repeat split; vm_compute; reflexivity. Qed.

End BacklightRoundTrip.

(* ------------------------------------------------------------------ *)
(** ** KeyboardBacklightController: detection *)

Section Detection.
Import KeyboardBacklightController BacklightDetection.

Lemma fromkeys_in (l : list path) (q : path) : In q (fromkeys l) <-> In q l.
Proof.
  induction l as [|p tl IH]; [reflexivity|].
  cbn [fromkeys In]. rewrite filter_In, IH.
  destruct (String.eqb_spec q p) as [-> | Hne]; cbn [negb].
  - split; [intros [H | [_ H]]; [left; exact H | discriminate]
           | intros _; left; reflexivity].
  - split; [intros [H | [H _]]; [left; exact H | right; exact H]
           | intros [H | H]; [left; exact H | right; split; [exact H | reflexivity]]].
Qed.

Lemma fromkeys_nodup (l : list path) : NoDup (fromkeys l).
Proof.
  induction l as [|p tl IH]; [constructor|].
  cbn [fromkeys]. constructor.
  - rewrite filter_In. intros [_ H]. rewrite String.eqb_refl in H. discriminate.
  - apply NoDup_filter. exact IH.
Qed.

(** X17.  After detection the controller's directories are those found,
    each once; colour support is recorded only when one of them has a
    colour file; the type is one of four, three zones are reported only
    with colour support and at least three directories, and the number
    of zones never exceeds the number of directories.  An available
    backlight has at least one directory and one zone. *)
Theorem detect_backlight_consistent (ls : led_listing) (fs : sysfs)
        (max_file : path -> option attr) :
  let d := detect_backlight ls fs max_file in
  let c := controller d in
  let led_dirs := match glob_kbd_backlight ls with
                  | [] => glob_keyboard ls ++ glob_rgb ls
                  | l => l
                  end in
  let n := Z.of_nat (length (kbd_backlight_paths c)) in
  NoDup (kbd_backlight_paths c) /\
  (forall q, In q (kbd_backlight_paths c) <-> In q led_dirs) /\
  (has_rgb c = true ->
   exists q, In q (kbd_backlight_paths c) /\ exists_ fs q multi_intensity = true) /\
  0 <= num_zones d <= n /\
  (is_available d = true -> 1 <= num_zones d) /\
  ((backlight_type d = BACKLIGHT_TYPE_NONE /\ num_zones d = 0) \/
   (backlight_type d = BACKLIGHT_TYPE_FIXED_COLOR /\ num_zones d = 1 /\
    has_rgb c = false) \/
   (backlight_type d = BACKLIGHT_TYPE_1_ZONE_RGB /\ num_zones d = 1 /\
    has_rgb c = true /\ n < 3) \/
   (backlight_type d = BACKLIGHT_TYPE_3_ZONE_RGB /\ num_zones d = 3 /\
    has_rgb c = true /\ 3 <= n)).
Proof.
  intros d c led_dirs n.
  assert (Hpaths : kbd_backlight_paths c = fromkeys led_dirs).
  { unfold c, d, detect_backlight. fold led_dirs.
    destruct (fromkeys led_dirs) as [|p0 rest]; [reflexivity|].
    destruct (read_max_brightness max_file p0) as [[v|e]|]; try reflexivity;
      destruct (existsb _ led_dirs); try reflexivity;
      destruct (Z.of_nat (length (p0 :: rest)) >=? 3); reflexivity. }
  assert (Hrgb : has_rgb c = true ->
                 existsb (fun q => exists_ fs q multi_intensity) led_dirs = true).
  { unfold c, d, detect_backlight. fold led_dirs.
    destruct (existsb _ led_dirs); [reflexivity|].
    destruct (fromkeys led_dirs) as [|p0 rest]; [auto|].
    destruct (read_max_brightness max_file p0) as [[v|e]|]; auto. }
  split; [rewrite Hpaths; apply fromkeys_nodup|].
  split; [intros q; rewrite Hpaths; apply fromkeys_in|].
  split.
  { intros H. apply Hrgb in H. apply existsb_exists in H.
    destruct H as (q & Hin & Hex). exists q.
    rewrite Hpaths, fromkeys_in. split; assumption. }
  unfold n. rewrite Hpaths. clear Hpaths Hrgb n.
  unfold c, d, detect_backlight, is_available. fold led_dirs.
  destruct (fromkeys led_dirs) as [|p0 rest] eqn:Hk.
  - cbn. repeat split; try lia; try discriminate.
  - assert (Hlen : 1 <= Z.of_nat (length (p0 :: rest))) by (simpl; lia).
    destruct (read_max_brightness max_file p0) as [[v|e]|];
      destruct (existsb _ led_dirs);
      try (destruct (Z.geb_spec (Z.of_nat (length (p0 :: rest))) 3));
      cbn [backlight_type num_zones controller has_rgb];
      (split; [lia|]); (split; [vm_compute; try discriminate; lia|]);
      first [ left; split; reflexivity
            | right; left; repeat split; reflexivity
            | right; right; left; repeat split; try reflexivity; lia
            | right; right; right; repeat split; try reflexivity; lia ].
Qed.

End Detection.

(* ------------------------------------------------------------------ *)
(** ** Fades *)

Section Fades.
Import PyNum Fade.

Lemma values_map_Ret (l : list (res Z)) (vs : list Z) :
  values l = Some vs -> l = map Ret vs.
Proof.
  revert vs. induction l as [|[v|e] tl IH]; intros vs H.
  - injection H as <-. reflexivity.
  - cbn [values] in H. destruct (values tl) as [ws|]; [|discriminate].
    injection H as <-. cbn [map]. f_equal. apply IH. reflexivity.
  - discriminate.
Qed.

(** X18.  From every start brightness from 0 to 255, a fade-out that is
    not interrupted makes 21 writes without raising: the first of the
    start brightness itself, the last of 0, and none above the one
    before it. *)
Theorem fade_out_descends (start : Z) :
  0 <= start <= 255 ->
  exists l,
    fade_out_levels start = map Ret l /\
    length l = 21%nat /\
    nth 0 l 0 = start /\
    nth 20 l 1 = 0 /\
    (forall i, (i < 20)%nat -> 0 <= nth (S i) l 0 <= nth i l 0).
Proof.
  intros Hs.
  assert (Hall : forallb fade_out_ok (map Z.of_nat (seq 0 256)) = true)
    by (vm_compute; reflexivity).
  pose proof (forallb_below _ 256 Hall start ltac:(lia)) as H.
  unfold fade_out_ok in H.
  destruct (values (fade_out_levels start)) as [l|] eqn:Hv; [|discriminate].
  apply andb_true_iff in H. destruct H as [H Hd].
  apply andb_true_iff in H. destruct H as [H H20].
  apply andb_true_iff in H. destruct H as [Hlen H0].
  exists l. split; [exact (values_map_Ret _ _ Hv)|].
  split; [apply Nat.eqb_eq; exact Hlen|].
  split; [apply Z.eqb_eq; exact H0|].
  split; [apply Z.eqb_eq; exact H20|].
  intros i Hi. unfold descends in Hd. rewrite forallb_forall in Hd.
  specialize (Hd i ltac:(apply in_seq; lia)).
  apply andb_true_iff in Hd. destruct Hd as [Hd1 Hd2].
  apply Z.leb_le in Hd1. apply Z.leb_le in Hd2. lia.
Qed.

Lemma fade_out_descends_witness :
  exists l,
    fade_out_levels 255 = map Ret l /\
    length l = 21%nat /\
    nth 0 l 0 = 255 /\
    nth 20 l 1 = 0 /\
    (forall i, (i < 20)%nat -> 0 <= nth (S i) l 0 <= nth i l 0).
Proof. apply (fade_out_descends 255). lia. Defined.

Lemma fade_in_brightness_0 (current target : Z) :
  fade_in_brightness current target 0 = fade_in_brightness current current 0.
Proof. unfold fade_in_brightness. rewrite !Z.mul_0_r. reflexivity. Qed.

(** X19.  For brightness values from 0 to 255, the writes of a fade-in
    that is not interrupted start at the current brightness and end
    exactly at the target; when the current brightness is already at or
    above the target, the one write is the target. *)
Theorem fade_in_reaches_target (current target : Z) :
  0 <= current <= 255 -> 0 <= target <= 255 ->
  hd (Exc ValueError) (fade_in_levels current target)
  = Ret (if current >=? target then target else current) /\
  last (fade_in_levels current target) (Exc ValueError) = Ret target.
Proof.
  intros Hc Ht. unfold fade_in_levels.
  destruct (Z.geb_spec current target) as [Hge | Hlt]; [split; reflexivity|].
  unfold step_range. cbn [seq map hd last].
  change (Z.of_nat 0) with 0. change (Z.of_nat 20) with steps. split.
  - rewrite fade_in_brightness_0.
    assert (Hall : forallb fade_in_starts (map Z.of_nat (seq 0 256)) = true)
      by (vm_compute; reflexivity).
    pose proof (forallb_below _ 256 Hall current ltac:(lia)) as H.
    unfold fade_in_starts in H.
    destruct (fade_in_brightness current current 0) as [v|]; [|discriminate].
    apply Z.eqb_eq in H. congruence.
  - assert (Hall : forallb (fun c => forallb (fade_in_ends c)
                                       (map Z.of_nat (seq 0 (255 - Z.to_nat c))))
                     (map Z.of_nat (seq 0 255)) = true)
      by (vm_compute; reflexivity).
    pose proof (forallb_below _ 255 Hall current ltac:(lia)) as H.
    cbv beta in H.
    pose proof (forallb_below _ _ H (target - current - 1) ltac:(lia)) as H'.
    unfold fade_in_ends in H'.
    replace (current + 1 + (target - current - 1)) with target in H' by lia.
    destruct (fade_in_brightness current target steps) as [v|]; [|discriminate].
    apply Z.eqb_eq in H'. congruence.
Qed.

Lemma fade_in_reaches_target_witness :
  hd (Exc ValueError) (fade_in_levels 12 200)
  = Ret (if 12 >=? 200 then 200 else 12) /\
  last (fade_in_levels 12 200) (Exc ValueError) = Ret 200.
Proof. apply (fade_in_reaches_target 12 200); lia. Defined.

End Fades.
